(** * RooAddModel: a sum of resolution models as a composite resolution model

    Shallow embedding of [roofitcore/src/RooAddModel.cxx]

      ADDMODEL = c_1*MODEL_1 + c_2*MODEL_2 + ... (1-sum(c_1...c_n-1))*MODEL_n

    and the properties of its evaluation, normalisation, basis handling,
    analytical-integral negotiation and convolution.

    Conventions of the embedding
    - [Int_t] is a 32-bit signed integer, carried by [Z] with its wrap-around
      written out ([Int32.wrap]).
    - [Double_t] is idealised: every finite double is a rational number, and
      the arithmetic is carried out exactly in [Q] (no rounding, no NaN).
      Numeric results are compared with [==] ([Qeq]).
    - A [RooAbsArg] is identified by its name, a [RooArgSet] is the ordered
      list of its members.
    - Text written to [cout] is a list of [Diag] events returned next to the
      value; [mutable] members changed by a [const] method are returned as an
      updated object.
    - [assert(0)] and the use of a null pointer do not return: they are the
      [AssertFail] and [Undefined] outcomes.  A [while] loop whose
      condition tests the proxy that [iter->Next()] returns ends when the
      iterator is exhausted; one whose condition takes [absArg()] of that
      proxy untested uses a null pointer there. *)

From Stdlib Require Import String Bool ZArith QArith Lia List.
Import ListNotations.

(** ** Machine integers *)

Module Int32.

Local Open Scope Z_scope.

Definition t := Z.

Definition min_int : Z := - 2 ^ 31.
Definition max_int : Z := 2 ^ 31 - 1.

Definition wrap (z : Z) : t := (z + 2 ^ 31) mod 2 ^ 32 - 2 ^ 31.

Definition in_range (z : Z) : Prop := min_int <= z <= max_int.

Definition add (a b : t) : t := wrap (a + b).
Definition sub (a b : t) : t := wrap (a - b).

(** [++i] *)
Definition incr (a : t) : t := add a 1.

End Int32.

Definition Int_t : Type := Int32.t.

(** ** Idealised doubles *)

Definition Double_t := Q.

Definition Double_lt (a b : Double_t) : bool := negb (Qle_bool b a).

(** ** Diagnostics written to [cout] *)

Inductive Diag : Type :=
| CoefRangeWarning (method : string) (sum : Double_t)
    (* "WARNING: sum of model coefficients not in range [0-1], value=" *)
| NoMoreWillBePrinted
    (* "(no more will be printed) " *)
| CoefCountError
    (* "ERROR: number of coefficients must be one less than number of models" *)
| ConvVarError
    (* "ERROR: models have inconsistent convolution variable" *)
| ConvParamMismatch (basisServer x : string)
    (* "convolution parameter of basis function and PDF don't match" *)
| InconsistentIntegrals (model : string)
    (* "WARNING: component model ... advertises inconsistent set of integrals" *)
| UnrecognizedCode (code : Int_t).
    (* "ERROR unrecognized integration code, " *)

(** ** Outcomes of a call *)

Inductive outcome (A : Type) : Type :=
| Ret (a : A)      (* the call returns [a] *)
| AssertFail (d : Diag)   (* [assert(0)], after the message [d] was written *)
| Undefined.             (* a null pointer is used, or an array is read past its end *)

Arguments Ret {A} a.
Arguments AssertFail {A} d.
Arguments Undefined {A}.

Definition bind {A B} (c : outcome A) (k : A -> outcome B) : outcome B :=
  match c with
  | Ret a => k a
  | AssertFail d => AssertFail d
  | Undefined => Undefined
  end.

Notation "x <- c ;; k" := (bind c (fun x => k))
  (at level 61, c at next level, right associativity).
Notation "' pat <- c ;; k" := (bind c (fun x => match x with pat => k end))
  (at level 61, pat pattern, c at next level, right associativity).

Definition returns {A} (c : outcome A) : bool :=
  match c with Ret _ => true | _ => false end.

(** ** Collaborators *)

(** A [RooAbsArg] is identified by its name. *)
Definition RooAbsArg := string.

Definition RooAbsArg_eqb (a b : RooAbsArg) : bool := String.eqb a b.

(** [const RooArgSet*]: a null pointer is [None]. *)
Definition RooArgSet := list RooAbsArg.
Definition RooArgSetPtr := option RooArgSet.

Module ArgSet.

(** Modelled from the spec: the class RooArgSet is declared outside the
    sources at hand; it is an ordered collection of variables that can be
    searched by name, pruned and extended, and that refuses a second
    member of the same name. *)
Definition find (s : RooArgSet) (name : string) : bool :=
  existsb (String.eqb name) s.

Definition remove (s : RooArgSet) (arg : RooAbsArg) : RooArgSet :=
  filter (fun a => negb (RooAbsArg_eqb a arg)) s.

Definition add1 (s : RooArgSet) (arg : RooAbsArg) : RooArgSet :=
  if find s arg then s else (s ++ [arg])%list.

Definition add (s other : RooArgSet) : RooArgSet :=
  fold_left add1 other s.

Definition getSize (s : RooArgSet) : Z := Z.of_nat (length s).

End ArgSet.

(** A coefficient: any [RooAbsReal]. *)
Record RooAbsReal : Type := {
  real_GetName : string;
  real_getVal : RooArgSetPtr -> Double_t
}.

(** A component: the virtual interface of [RooResolutionModel] that
    [RooAddModel] calls on its components. *)
Record RooResolutionModel : Type := {
  model_GetName : string;
  model_convVar : RooAbsArg;
  model_getVal : RooArgSetPtr -> Double_t;
  model_getNorm : RooArgSetPtr -> Double_t;
  model_getNormSpecial : RooArgSetPtr -> Double_t;
  model_basisCode : string -> Int_t;
  model_getAnalyticalIntegralWN :
    RooArgSet -> RooArgSetPtr -> Int_t * RooArgSet;
  model_analyticalIntegralWN : Int_t -> RooArgSetPtr -> Double_t
}.

(** A basis function: a [RooFormulaVar] with its ordered servers. *)
Record RooFormulaVar : Type := {
  basis_GetName : string;
  basis_GetTitle : string;
  basis_servers : list RooAbsArg
}.

Definition findServer (basis : RooFormulaVar) (index : nat) : option RooAbsArg :=
  nth_error (basis_servers basis) index.

(** ** The code registry *)

Module RooAICRegistry.

(** Modelled from the spec: the class RooAICRegistry is declared outside
    the sources at hand.  The registry is an append-only ordered list of
    code arrays. *)
Definition t := list (list Int_t).

Definition empty : t := [].

(** Modelled from the spec: [store] appends the array of [size] codes, never
    overwrites and never evicts, and returns the position of the stored
    array. *)
Definition store (reg : t) (codeList : list Int_t) (size : nat) : Int_t * t :=
  (Int32.wrap (Z.of_nat (length reg)), (reg ++ [firstn size codeList])%list).

(** Modelled from the spec: [retrieve] returns the array at a position, or
    a null pointer for a position that was never stored. *)
Definition retrieve (reg : t) (masterCode : Int_t) : option (list Int_t) :=
  if (masterCode <? 0)%Z then None else nth_error reg (Z.to_nat masterCode).

(** The position of the next stored array, and the master code made of
    it, are representable. *)
Definition fits (reg : t) : Prop :=
  (Z.of_nat (length reg) < Int32.max_int)%Z.

End RooAICRegistry.

(** ** The composite *)

Record RooAddModel : Type := {
  GetName : string;
  GetTitle : string;
  x : RooAbsArg;                                (* convolution variable *)
  _modelProxyList : list RooResolutionModel;
  _coefProxyList : list RooAbsReal;
  _isCopy : bool;
  _basis : option RooFormulaVar;
  _basisCode : Int_t;
  _errorCount : Int_t;
  _codeReg : RooAICRegistry.t;
  _proxyNormSet : RooArgSetPtr                  (* normalisation set of the proxies *)
}.

Definition set_errorCount (self : RooAddModel) (n : Int_t) : RooAddModel :=
  {| GetName := GetName self; GetTitle := GetTitle self; x := x self;
     _modelProxyList := _modelProxyList self;
     _coefProxyList := _coefProxyList self;
     _isCopy := _isCopy self; _basis := _basis self;
     _basisCode := _basisCode self; _errorCount := n;
     _codeReg := _codeReg self; _proxyNormSet := _proxyNormSet self |}.

Definition set_codeReg (self : RooAddModel) (reg : RooAICRegistry.t) : RooAddModel :=
  {| GetName := GetName self; GetTitle := GetTitle self; x := x self;
     _modelProxyList := _modelProxyList self;
     _coefProxyList := _coefProxyList self;
     _isCopy := _isCopy self; _basis := _basis self;
     _basisCode := _basisCode self; _errorCount := _errorCount self;
     _codeReg := reg; _proxyNormSet := _proxyNormSet self |}.

Definition set_models (self : RooAddModel) (models : list RooResolutionModel) : RooAddModel :=
  {| GetName := GetName self; GetTitle := GetTitle self; x := x self;
     _modelProxyList := models;
     _coefProxyList := _coefProxyList self;
     _isCopy := _isCopy self; _basis := _basis self;
     _basisCode := _basisCode self; _errorCount := _errorCount self;
     _codeReg := _codeReg self; _proxyNormSet := _proxyNormSet self |}.

(** [RooRealProxy::operator Double_t]: the current value of the proxied
    object under the normalisation set of the proxy. *)
Definition modelProxy (self : RooAddModel) (model : RooResolutionModel) : Double_t :=
  model_getVal model (_proxyNormSet self).

Definition coefProxy (self : RooAddModel) (coef : RooAbsReal) : Double_t :=
  real_getVal coef (_proxyNormSet self).

(** ** [RooAddModel::evaluate] *)

Local Open Scope Q_scope.

(** The [while(coef=...Next())] loop: one model is taken for every
    coefficient; a missing model is a null proxy. *)
Fixpoint evaluate_loop (self : RooAddModel)
    (coefs : list RooAbsReal) (models : list RooResolutionModel)
    (value lastCoef : Double_t)
  : outcome (Double_t * Double_t * list RooResolutionModel) :=
  match coefs with
  | [] => Ret (value, lastCoef, models)
  | coef :: coefs' =>
      match models with
      | [] => Undefined
      | model :: models' =>
          evaluate_loop self coefs' models'
            (value + modelProxy self model * coefProxy self coef)
            (lastCoef - coefProxy self coef)
      end
  end.

Definition evaluate (self : RooAddModel)
  : outcome (Double_t * RooAddModel * list Diag) :=
  '(value, lastCoef, rest) <-
     evaluate_loop self (_coefProxyList self) (_modelProxyList self) 0 1 ;;
  match rest with
  | [] => Undefined
  | model :: _ =>
      let value := value + modelProxy self model * lastCoef in
      if Double_lt lastCoef 0 || Double_lt 1 lastCoef then
        let count := Int32.incr (_errorCount self) in
        let self' := set_errorCount self count in
        if (count <=? 10)%Z then
          Ret (value, self',
               CoefRangeWarning "evaluate" (1 - lastCoef)
                 :: (if (count =? 10)%Z then [NoMoreWillBePrinted] else []))
        else Ret (value, self', [])
      else Ret (value, self, [])
  end.

(** The value alone. *)
Definition evaluate_value (self : RooAddModel) : outcome Double_t :=
  '(value, _, _) <- evaluate self ;; Ret value.

(** ** Constructors *)

(** The loop over the model list of the constructor: every model must use
    the convolution variable of the first one; each is added to the proxy
    list. *)
Fixpoint ctor_modelLoop (modelList : list RooResolutionModel)
    (refConvVar : option RooAbsArg) (proxies : list RooResolutionModel)
  : outcome (list RooResolutionModel) :=
  match modelList with
  | [] => Ret proxies
  | model :: modelList' =>
      match refConvVar with
      | None =>
          ctor_modelLoop modelList' (Some (model_convVar model))
            (proxies ++ [model])
      | Some ref =>
          if negb (RooAbsArg_eqb (model_convVar model) ref)
          then AssertFail ConvVarError
          else ctor_modelLoop modelList' refConvVar (proxies ++ [model])
      end
  end.

(** The loop over the coefficient list of the constructor. *)
Fixpoint ctor_coefLoop (coefList : list RooAbsReal) (proxies : list RooAbsReal)
  : list RooAbsReal :=
  match coefList with
  | [] => proxies
  | coef :: coefList' => ctor_coefLoop coefList' (proxies ++ [coef])
  end.

(** [RooAddModel::RooAddModel(name,title,modelList,coefList)].  The base
    class is initialised from [modelList.at(0)->convVar()] before the body
    runs, and [at(0)] of an empty list is a null pointer.  The two
    [dynamic_cast] checks of the body are settled by the types of the lists.

    Modelled from the spec: the members inherited from RooResolutionModel
    and RooAbsPdf start as a plain density (no basis, basis code 0), with
    no diagnostic counted and an empty code registry. *)
Definition RooAddModel_ctor (name title : string)
    (modelList : list RooResolutionModel) (coefList : list RooAbsReal)
  : outcome RooAddModel :=
  match modelList with
  | [] => Undefined
  | first :: _ =>
      if negb (length modelList =? length coefList + 1)%nat
      then AssertFail CoefCountError
      else
        models <- ctor_modelLoop modelList None [] ;;
        Ret {| GetName := name; GetTitle := title;
               x := model_convVar first;
               _modelProxyList := models;
               _coefProxyList := ctor_coefLoop coefList [];
               _isCopy := false;
               _basis := None;
               _basisCode := 0%Z;
               _errorCount := 0%Z;
               _codeReg := RooAICRegistry.empty;
               _proxyNormSet := None |}
  end.

(** [RooAddModel::RooAddModel(const RooAddModel& other, const char* name)]:
    the proxy lists are copied and the copy is marked.

    The initialiser list does not name the code registry, which is
    default-constructed: the copy starts with an empty one. *)
Definition RooAddModel_copy (other : RooAddModel) (name : string) : RooAddModel :=
  {| GetName := name; GetTitle := GetTitle other;
     x := x other;
     _modelProxyList := _modelProxyList other;
     _coefProxyList := _coefProxyList other;
     _isCopy := true;
     _basis := _basis other;
     _basisCode := _basisCode other;
     _errorCount := _errorCount other;
     _codeReg := RooAICRegistry.empty;
     _proxyNormSet := _proxyNormSet other |}.

(** ** [RooAddModel::basisCode] *)

Definition Bool_t := bool.

(** [Bool_t] is the C++ [bool] of Rtypes.h: an [Int_t] converts to true
    exactly when it is not 0, and true converts back to 1. *)
Definition Bool_of_Int (i : Int_t) : Bool_t := negb (i =? 0)%Z.
Definition Int_of_Bool (b : Bool_t) : Int_t := if b then 1%Z else 0%Z.

(** The loop of [basisCode].  Both locals are declared by
    [Bool_t first(kTRUE), code(0)]; [first] is never assigned. *)
Fixpoint basisCode_loop (models : list RooResolutionModel) (name : string)
    (first code : Bool_t) : Bool_t :=
  match models with
  | [] => code
  | model :: models' =>
      let subCode := model_basisCode model name in
      if first then
        basisCode_loop models' name first (Bool_of_Int subCode)
      else if (subCode =? 0)%Z then
        basisCode_loop models' name first (Bool_of_Int 0%Z)
      else
        basisCode_loop models' name first code
  end.

Definition basisCode (self : RooAddModel) (name : string) : Int_t :=
  Int_of_Bool (basisCode_loop (_modelProxyList self) name true false).

(** Modelled from the spec: RooResolutionModel::changeBasis is declared
    outside the sources at hand; it tags the model with the basis, and the
    basis code of the instance is the one reported for that basis. *)
Definition changeBasis (self : RooAddModel) (basis : RooFormulaVar) : RooAddModel :=
  {| GetName := GetName self; GetTitle := GetTitle self; x := x self;
     _modelProxyList := _modelProxyList self;
     _coefProxyList := _coefProxyList self;
     _isCopy := _isCopy self; _basis := Some basis;
     _basisCode := basisCode self (basis_GetTitle basis);
     _errorCount := _errorCount self;
     _codeReg := _codeReg self; _proxyNormSet := _proxyNormSet self |}.

(** ** [RooAddModel::convolution] *)

Section Convolution.

(** The virtual [convolution(basis,owner)] of the components; a null
    result is [None]. *)
Variable model_convolution :
  RooResolutionModel -> RooFormulaVar -> string -> option RooResolutionModel.

Fixpoint convolution_modelLoop (models : list RooResolutionModel)
    (basis : RooFormulaVar) (owner : string)
    (modelList : list RooResolutionModel)
  : outcome (list RooResolutionModel) :=
  match models with
  | [] => Ret modelList
  | model :: models' =>
      match model_convolution model basis owner with
      | None => Undefined
      | Some conv =>
          convolution_modelLoop models' basis owner (modelList ++ [conv])
      end
  end.

Fixpoint convolution_coefLoop (coefs : list RooAbsReal)
    (coefList : list RooAbsReal) : list RooAbsReal :=
  match coefs with
  | [] => coefList
  | coef :: coefs' => convolution_coefLoop coefs' (coefList ++ [coef])
  end.

Definition convolution_newName (self : RooAddModel) (basis : RooFormulaVar)
    (owner : string) : string :=
  (GetName self ++ "_conv_" ++ basis_GetName basis ++ "_[" ++ owner ++ "]")%string.

Definition convolution_newTitle (self : RooAddModel) (basis : RooFormulaVar)
  : string :=
  (GetTitle self ++ " convoluted with basis function " ++ basis_GetName basis)%string.

(** The result is the returned pointer ([None] is the null pointer) and
    the text written.  When the basis has no server at all, the name of a
    null server is asked for while the mismatch is reported. *)
Definition convolution (self : RooAddModel) (basis : RooFormulaVar)
    (owner : string) : outcome (option RooAddModel * list Diag) :=
  match findServer basis 0 with
  | None => Undefined
  | Some server =>
      if negb (RooAbsArg_eqb server (x self)) then
        Ret (None, [ConvParamMismatch server (x self)])
      else
        modelList <-
          convolution_modelLoop (_modelProxyList self) basis owner [] ;;
        let coefList := convolution_coefLoop (_coefProxyList self) [] in
        convSum <-
          RooAddModel_ctor (convolution_newName self basis owner)
            (convolution_newTitle self basis) modelList coefList ;;
        Ret (Some (changeBasis convSum basis), [])
  end.

End Convolution.

(** ** [RooAddModel::getNorm] and [RooAddModel::getNormSpecial] *)

Section Normalisation.

(** The inherited [RooAbsPdf::getNorm], the normalisation of a plain
    density. *)
Variable RooAbsPdf_getNorm : RooAddModel -> RooArgSetPtr -> Double_t.

Fixpoint getNorm_loop (self : RooAddModel) (nset : RooArgSetPtr)
    (coefs : list RooAbsReal) (models : list RooResolutionModel)
    (norm lastCoef : Double_t)
  : outcome (Double_t * Double_t * list RooResolutionModel) :=
  match coefs with
  | [] => Ret (norm, lastCoef, models)
  | coef :: coefs' =>
      match models with
      | [] => Undefined
      | model :: models' =>
          getNorm_loop self nset coefs' models'
            (norm + model_getNorm model nset * coefProxy self coef)
            (lastCoef - coefProxy self coef)
      end
  end.

(** The text written under [_verboseEval>1] is left out. *)
Definition getNorm (self : RooAddModel) (nset : RooArgSetPtr)
  : outcome (Double_t * list Diag) :=
  match _basis self with
  | None => Ret (RooAbsPdf_getNorm self nset, [])
  | Some _ =>
      '(norm, lastCoef, rest) <-
         getNorm_loop self nset (_coefProxyList self) (_modelProxyList self) 0 1 ;;
      match rest with
      | [] => Undefined
      | model :: _ =>
          let norm := norm + model_getNorm model nset * lastCoef in
          if Double_lt lastCoef 0 || Double_lt 1 lastCoef then
            Ret (norm, [CoefRangeWarning "evaluate" (1 - lastCoef)])
          else Ret (norm, [])
      end
  end.

Fixpoint getNormSpecial_loop (self : RooAddModel) (nset : RooArgSetPtr)
    (coefs : list RooAbsReal) (models : list RooResolutionModel)
    (norm lastCoef : Double_t)
  : outcome (Double_t * Double_t * list RooResolutionModel) :=
  match coefs with
  | [] => Ret (norm, lastCoef, models)
  | coef :: coefs' =>
      match models with
      | [] => Undefined
      | model :: models' =>
          getNormSpecial_loop self nset coefs' models'
            (norm + model_getNormSpecial model nset * coefProxy self coef)
            (lastCoef - coefProxy self coef)
      end
  end.

Definition getNormSpecial (self : RooAddModel) (nset : RooArgSetPtr)
  : outcome (Double_t * list Diag) :=
  match _basis self with
  | None => Ret (RooAbsPdf_getNorm self nset, [])
  | Some _ =>
      '(norm, lastCoef, rest) <-
         getNormSpecial_loop self nset (_coefProxyList self)
           (_modelProxyList self) 0 1 ;;
      match rest with
      | [] => Undefined
      | model :: _ =>
          let norm := norm + model_getNormSpecial model nset * lastCoef in
          if Double_lt lastCoef 0 || Double_lt 1 lastCoef then
            Ret (norm, [CoefRangeWarning "evaluate" (1 - lastCoef)])
          else Ret (norm, [])
      end
  end.

End Normalisation.

(** The numeric result alone. *)
Definition result_value {A B} (c : outcome (A * B)) : outcome A :=
  '(v, _) <- c ;; Ret v.

(** ** [RooAddModel::getAnalyticalIntegralWN] *)

(** The inner loop of the first iteration: every requested variable that
    the component did not report is dropped from the combined list. *)
Definition dropUnsupported (allVars subAnalVars allAnalVars : RooArgSet)
  : RooArgSet :=
  fold_left
    (fun acc arg =>
       if negb (ArgSet.find subAnalVars arg) then ArgSet.remove acc arg else acc)
    allVars allAnalVars.

(** First iteration: what each component can integrate analytically.  The
    loop condition assigns [model] from [absArg()] of the proxy that
    [Next()] returns, and nothing tests that proxy first: once the model
    iterator is exhausted, [absArg()] is called on a null pointer. *)
Fixpoint firstIteration (models : list RooResolutionModel)
    (allVars : RooArgSet) (normSet : RooArgSetPtr) (allAnalVars : RooArgSet)
  : outcome RooArgSet :=
  match models with
  | [] => Undefined
  | model :: models' =>
      let '(subCode, subAnalVars) :=
        model_getAnalyticalIntegralWN model allVars normSet in
      firstIteration models' allVars normSet
        (dropUnsupported allVars subAnalVars allAnalVars)
  end.

(** Second iteration: the component codes for the common set.  Its loop
    condition is the one of the first iteration. *)
Fixpoint secondIteration (models : list RooResolutionModel)
    (allAnalVars : RooArgSet) (normSet : RooArgSetPtr)
    (subCode : list Int_t) (allOK : Bool_t) (out : list Diag)
  : outcome (list Int_t * Bool_t * list Diag) :=
  match models with
  | [] => Undefined
  | model :: models' =>
      let code := fst (model_getAnalyticalIntegralWN model allAnalVars normSet) in
      if (code =? 0)%Z then
        secondIteration models' allAnalVars normSet (subCode ++ [code]) false
          (out ++ [InconsistentIntegrals (model_GetName model)])
      else
        secondIteration models' allAnalVars normSet (subCode ++ [code]) allOK out
  end.

(** The statements that follow the second iteration: the exit on
    [!allOK], then [analVars.add] and the store of the plan.  The result is
    the master code, the output set [analVars] after the call, the object
    with its registry after the call, and the text written. *)
Definition storePlan (self : RooAddModel) (analVars allAnalVars : RooArgSet)
    (subCode : list Int_t) (allOK : Bool_t) (out : list Diag)
  : Int_t * RooArgSet * RooAddModel * list Diag :=
  if negb allOK then (0%Z, analVars, self, out)
  else
    let analVars' := ArgSet.add analVars allAnalVars in
    let '(index, reg) :=
      RooAICRegistry.store (_codeReg self) subCode
        (length (_modelProxyList self)) in
    (Int32.add index 1%Z, analVars', set_codeReg self reg, out).

(** The statements that follow the first iteration: the exit on an empty
    common set, then the second iteration. *)
Definition confirmCommonSet (self : RooAddModel) (analVars : RooArgSet)
    (normSet : RooArgSetPtr) (allAnalVars : RooArgSet)
  : outcome (Int_t * RooArgSet * RooAddModel * list Diag) :=
  if (ArgSet.getSize allAnalVars =? 0)%Z then Ret (0%Z, analVars, self, [])
  else
    '(subCode, allOK, out) <-
       secondIteration (_modelProxyList self) allAnalVars normSet [] true [] ;;
    Ret (storePlan self analVars allAnalVars subCode allOK out).

Definition getAnalyticalIntegralWN (self : RooAddModel)
    (allVars analVars : RooArgSet) (normSet : RooArgSetPtr)
  : outcome (Int_t * RooArgSet * RooAddModel * list Diag) :=
  if negb (_basisCode self =? 0)%Z then Ret (0%Z, analVars, self, [])
  else
    allAnalVars <-
      firstIteration (_modelProxyList self) allVars normSet allVars ;;
    confirmCommonSet self analVars normSet allAnalVars.

Definition masterCode_of (r : Int_t * RooArgSet * RooAddModel * list Diag) : Int_t :=
  fst (fst (fst r)).
Definition analVars_of (r : Int_t * RooArgSet * RooAddModel * list Diag) : RooArgSet :=
  snd (fst (fst r)).
Definition self_of (r : Int_t * RooArgSet * RooAddModel * list Diag) : RooAddModel :=
  snd (fst r).

(** ** [RooAddModel::analyticalIntegralWN] *)

(** The loop over the coefficients; [i] indexes the retrieved code array.
    The loop condition assigns [coef] from [absArg()] of the proxy that
    [Next()] returns, and nothing tests that proxy first: once the
    coefficient iterator is exhausted, [absArg()] is called on a null
    pointer. *)
Fixpoint analyticalIntegralWN_loop (normSet : RooArgSetPtr)
    (subCode : list Int_t)
    (coefs : list RooAbsReal) (models : list RooResolutionModel)
    (i : nat) (value lastCoef : Double_t)
  : outcome (Double_t * Double_t * list RooResolutionModel * nat) :=
  match coefs with
  | [] => Undefined
  | coef :: coefs' =>
      match models, nth_error subCode i with
      | model :: models', Some code =>
          let coefVal := real_getVal coef normSet in
          analyticalIntegralWN_loop normSet subCode coefs' models' (S i)
            (value + model_analyticalIntegralWN model code normSet * coefVal)
            (lastCoef - coefVal)
      | _, _ => Undefined
      end
  end.

(** For code 0 the result is [getVal()] of the base class, declared outside
    the sources at hand; modelled from the spec, it falls back to
    [evaluate]. *)
Definition analyticalIntegralWN (self : RooAddModel) (code : Int_t)
    (normSet : RooArgSetPtr) : outcome (Double_t * RooAddModel * list Diag) :=
  if (code =? 0)%Z then evaluate self
  else
    match RooAICRegistry.retrieve (_codeReg self) (Int32.sub code 1%Z) with
    | None => AssertFail (UnrecognizedCode code)
    | Some subCode =>
        '(value, lastCoef, rest, i) <-
           analyticalIntegralWN_loop normSet subCode
             (_coefProxyList self) (_modelProxyList self) 0%nat 0 1 ;;
        match rest, nth_error subCode i with
        | model :: _, Some code_i =>
            let value :=
              value + model_analyticalIntegralWN model code_i normSet * lastCoef in
            if Double_lt lastCoef 0 || Double_lt 1 lastCoef then
              Ret (value, self,
                   [CoefRangeWarning "analyticalIntegral" (1 - lastCoef)])
            else Ret (value, self, [])
        | _, _ => Undefined
        end
    end.

(** [n] successive calls of a method that returns the object it leaves
    behind; the text written by each call is collected in order. *)
Fixpoint repeatCalls {A}
    (call : RooAddModel -> outcome (A * RooAddModel * list Diag))
    (n : nat) (self : RooAddModel) : outcome (RooAddModel * list (list Diag)) :=
  match n with
  | O => Ret (self, [])
  | S n' =>
      '(_, self', out) <- call self ;;
      '(self'', outs) <- repeatCalls call n' self' ;;
      Ret (self'', out :: outs)
  end.

(** ** The mixture formula of the class description *)

Fixpoint Qsum (l : list Q) : Q :=
  match l with
  | [] => 0
  | a :: l' => a + Qsum l'
  end.

(** [sum_i c_i*m_i + (1 - sum_i c_i)*m_n] for coefficients [cs] and model
    values [ms]; [m_n] is the model that follows the paired ones. *)
Definition mixture (cs ms : list Q) : Q :=
  Qsum (map (fun cm => fst cm * snd cm) (combine cs ms))
  + (1 - Qsum cs) * nth (length cs) ms 0.

Definition coefValues (self : RooAddModel) : list Q :=
  map (coefProxy self) (_coefProxyList self).

Definition modelValues (self : RooAddModel) : list Q :=
  map (modelProxy self) (_modelProxyList self).

(** N models and N-1 coefficients. *)
Definition wellSized (self : RooAddModel) : Prop :=
  length (_modelProxyList self) = S (length (_coefProxyList self)).

(** The derived weight of the last model, and its degeneracy. *)
Definition lastWeight (self : RooAddModel) : Q := 1 - Qsum (coefValues self).

Definition degenerateWeight (self : RooAddModel) : Prop :=
  lastWeight self < 0 \/ 1 < lastWeight self.

(** The normalisations of the components, as [getNorm] and as
    [getNormSpecial] report them. *)
Definition normValues (self : RooAddModel) (nset : RooArgSetPtr) : list Q :=
  map (fun m => model_getNorm m nset) (_modelProxyList self).

Definition normSpecialValues (self : RooAddModel) (nset : RooArgSetPtr) : list Q :=
  map (fun m => model_getNormSpecial m nset) (_modelProxyList self).

(** What a component advertises as integrable for the request [allVars]. *)
Definition advertised (model : RooResolutionModel) (allVars : RooArgSet)
    (normSet : RooArgSetPtr) : RooArgSet :=
  snd (model_getAnalyticalIntegralWN model allVars normSet).

(** The code a component returns for the request [vars]. *)
Definition componentCode (model : RooResolutionModel) (vars : RooArgSet)
    (normSet : RooArgSetPtr) : Int_t :=
  fst (model_getAnalyticalIntegralWN model vars normSet).

(** The requested variables that every component advertises: the common
    set the first iteration is after. *)
Definition advertisedByAll (models : list RooResolutionModel)
    (allVars : RooArgSet) (normSet : RooArgSetPtr) : RooArgSet :=
  filter
    (fun a => forallb (fun m => ArgSet.find (advertised m allVars normSet) a) models)
    allVars.

(** ** [RooAddModel::~RooAddModel] *)

(** The components handed to [ownedList.Delete()]: those of a convolution
    object that is not a copy, and none otherwise. *)
Definition dtor_ownedList (self : RooAddModel) : list RooResolutionModel :=
  match _basis self with
  | Some _ => if negb (_isCopy self) then _modelProxyList self else []
  | None => []
  end.

(** ** [RooAddModel::forceAnalyticalInt] *)

Definition forceAnalyticalInt (self : RooAddModel) (dep : RooAbsArg) : Bool_t :=
  (_basisCode self =? 0)%Z.

(** ** [RooAddModel::checkDependents] *)

Section Dependents.

(** The virtual [dependentOverlaps(set,coef)] of a component. *)
Variable dependentOverlaps :
  RooResolutionModel -> RooArgSetPtr -> RooAbsReal -> bool.

(** The loop of [checkDependents]; [out] collects, for every ERROR line
    written, the names of the coefficient and of the model. *)
Fixpoint checkDependents_loop (set : RooArgSetPtr)
    (coefs : list RooAbsReal) (models : list RooResolutionModel)
    (ret : Bool_t) (out : list (string * string))
  : outcome (Bool_t * list (string * string)) :=
  match coefs with
  | [] => Ret (ret, out)
  | coef :: coefs' =>
      match models with
      | [] => Undefined
      | model :: models' =>
          if dependentOverlaps model set coef then
            checkDependents_loop set coefs' models' true
              (out ++ [(real_GetName coef, model_GetName model)])
          else checkDependents_loop set coefs' models' ret out
      end
  end.

Definition checkDependents (self : RooAddModel) (set : RooArgSetPtr)
  : outcome (Bool_t * list (string * string)) :=
  checkDependents_loop set (_coefProxyList self) (_modelProxyList self)
    false [].

End Dependents.

(** ** Notions used by the further properties *)

(** The pairs of a model and its coefficient. *)
Definition pairedComponents (self : RooAddModel)
  : list (RooResolutionModel * RooAbsReal) :=
  combine (_modelProxyList self) (_coefProxyList self).

(** ** Objects used in the examples *)

Module Sample.

Local Open Scope string_scope.

(** A component over the convolution variable [convVar] with fixed value,
    normalisations, basis code and integration capability. *)
Definition model (name : string) (convVar : RooAbsArg)
    (val norm normSpecial : Double_t) (bcode : Int_t)
    (capability : RooArgSet -> Int_t * RooArgSet) : RooResolutionModel :=
  {| model_GetName := name;
     model_convVar := convVar;
     model_getVal := fun _ => val;
     model_getNorm := fun _ => norm;
     model_getNormSpecial := fun _ => normSpecial;
     model_basisCode := fun _ => bcode;
     model_getAnalyticalIntegralWN := fun vars _ => capability vars;
     model_analyticalIntegralWN := fun code _ => val * inject_Z code |}.

Definition coef (name : string) (val : Double_t) : RooAbsReal :=
  {| real_GetName := name; real_getVal := fun _ => val |}.

(** Integrates X and Y jointly, and nothing less. *)
Definition jointXY (vars : RooArgSet) : Int_t * RooArgSet :=
  if ArgSet.find vars "X" && ArgSet.find vars "Y"
  then (1%Z, ["X"; "Y"]%string) else (0%Z, []).

(** Integrates X alone. *)
Definition onlyX (vars : RooArgSet) : Int_t * RooArgSet :=
  if ArgSet.find vars "X" then (2%Z, ["X"]%string) else (0%Z, []).

(** Integrates nothing. *)
Definition nothing (vars : RooArgSet) : Int_t * RooArgSet := (0%Z, []).

Definition A : RooResolutionModel := model "A" "t" 2 1 1 1%Z jointXY.
Definition B : RooResolutionModel := model "B" "t" 3 1 1 1%Z onlyX.
Definition B' : RooResolutionModel := model "B'" "t" 5 1 1 1%Z onlyX.
Definition C : RooResolutionModel := model "C" "t" 7 1 1 1%Z nothing.

(** Does not support the basis. *)
Definition noBasis : RooResolutionModel := model "noBasis" "t" 1 1 1 0%Z onlyX.

(** A component over another convolution variable. *)
Definition other : RooResolutionModel := model "other" "u" 1 1 1 1%Z onlyX.

Definition composite (models : list RooResolutionModel)
    (coefs : list RooAbsReal) : RooAddModel :=
  {| GetName := "sum"; GetTitle := "sum of models"; x := "t";
     _modelProxyList := models; _coefProxyList := coefs;
     _isCopy := false; _basis := None; _basisCode := 0%Z;
     _errorCount := 0%Z; _codeReg := RooAICRegistry.empty;
     _proxyNormSet := None |}.

Definition basis : RooFormulaVar :=
  {| basis_GetName := "exp"; basis_GetTitle := "exp(-@0/@1)";
     basis_servers := ["t"; "tau"]%string |}.

Definition otherBasis : RooFormulaVar :=
  {| basis_GetName := "exp"; basis_GetTitle := "exp(-@0/@1)";
     basis_servers := ["u"; "tau"]%string |}.

(** The convolution of a component: a clone over the same convolution
    variable whose value is doubled. *)
Definition convolve (m : RooResolutionModel) (b : RooFormulaVar)
    (owner : string) : option RooResolutionModel :=
  Some (model (model_GetName m ++ "_conv_" ++ basis_GetName b)%string
          (model_convVar m) (2 * model_getVal m None) 1 1 1%Z onlyX).

(** Three models, two coefficients; the derived last weight is -3/2. *)
Definition degenerate : RooAddModel :=
  composite [A; B; B'] [coef "c1" (1 # 2); coef "c2" 2].

(** The first component does not support the basis, the second does. *)
Definition mixedBasis : RooAddModel :=
  composite [noBasis; B] [coef "c" (1 # 2)].

(** Both components report the basis code 5. *)
Definition bothFive : RooAddModel :=
  composite [model "m1" "t" 1 1 1 5%Z onlyX; model "m2" "t" 1 1 1 5%Z onlyX]
    [coef "c" (1 # 2)].

(** A integrates X and Y only jointly, B integrates X alone. *)
Definition inconsistent : RooAddModel :=
  composite [A; B] [coef "c" (1 # 2)].

(** Both components integrate X alone. *)
Definition agreeing : RooAddModel :=
  composite [B; B'] [coef "c" (1 # 2)].

(** B integrates X alone, C integrates nothing. *)
Definition disjoint : RooAddModel :=
  composite [B; C] [coef "c" (1 # 2)].

Definition requestXY : RooArgSet := ["X"; "Y"].
Definition callerVars : RooArgSet := ["Z"].

(** Two models and one coefficient. *)
Definition pair : RooAddModel :=
  composite [A; B] [coef "c" (1 # 3)].

(** A convolution of two components with equal reports. *)
Definition plainSum : RooAddModel :=
  changeBasis (composite [A; B] [coef "c" (1 # 2)]) basis.

(** Two models and a coefficient of 2: the derived last weight is -1. *)
Definition overweight : RooAddModel :=
  composite [B; B'] [coef "c" 2].

Definition genericNorm (self : RooAddModel) (nset : RooArgSetPtr) : Double_t := 1.

(** Three models, two coefficients; the derived last weight is 1/4. *)
Definition inRange : RooAddModel :=
  composite [A; B; B'] [coef "c1" (1 # 2); coef "c2" (1 # 4)].

(** As many coefficients as models. *)
Definition tooManyCoefs : RooAddModel :=
  composite [A; B] [coef "c1" (1 # 2); coef "c2" (1 # 4)].

(** Only the model B shares a dependent with its coefficient. *)
Definition overlapsB (m : RooResolutionModel) (set : RooArgSetPtr)
    (c : RooAbsReal) : bool :=
  String.eqb (model_GetName m) "B".

(** A plan stored in the second slot of the registry. *)
Definition plannedTwice : RooAddModel :=
  set_codeReg (composite [B; B'] [coef "c" (1 # 4)]) [[7%Z; 7%Z]; [2%Z; 3%Z]].

End Sample.

(** * Properties *)

(** ** Machine integers and idealised doubles *)

Local Open Scope Z_scope.

Lemma Int32_wrap_small z : Int32.in_range z -> Int32.wrap z = z.
Proof.
  unfold Int32.in_range, Int32.min_int, Int32.max_int, Int32.wrap. intros H.
  rewrite Z.mod_small; lia.
Qed.

Lemma Int32_incr_small z :
  Int32.min_int <= z < Int32.max_int -> Int32.incr z = z + 1.
Proof.
  intros H. unfold Int32.incr, Int32.add. apply Int32_wrap_small.
  unfold Int32.in_range, Int32.min_int, Int32.max_int in *. lia.
Qed.

Local Close Scope Z_scope.
Local Open Scope Q_scope.

Lemma Double_lt_iff a b : Double_lt a b = true <-> a < b.
Proof.
  unfold Double_lt. rewrite negb_true_iff.
  split; intros H.
  - apply Qnot_le_lt. intros Hle. apply Qle_bool_iff in Hle. congruence.
  - destruct (Qle_bool b a) eqn:E; auto.
    apply Qle_bool_iff in E. exfalso. exact (Qle_not_lt _ _ E H).
Qed.

(** [ring] over the idealised doubles. *)
Ltac dring := unfold Double_t in *; ring.

(** ** Evaluation *)

Lemma evaluate_loop_spec self : forall coefs models value lastCoef,
  (length coefs <= length models)%nat ->
  exists v l,
    evaluate_loop self coefs models value lastCoef
      = Ret (v, l, skipn (length coefs) models)
    /\ v == value
            + Qsum (map (fun cm => fst cm * snd cm)
                      (combine (map (coefProxy self) coefs)
                               (map (modelProxy self) models)))
    /\ l == lastCoef - Qsum (map (coefProxy self) coefs).
Proof.
  induction coefs as [|coef coefs IH]; intros models value lastCoef Hlen.
  - exists value, lastCoef. cbn. repeat split; dring.
  - destruct models as [|model models]; [cbn in Hlen; lia|].
    cbn in Hlen.
    destruct (IH models (value + modelProxy self model * coefProxy self coef)
                (lastCoef - coefProxy self coef) ltac:(lia))
      as (v & l & Hrun & Hv & Hl).
    exists v, l. cbn [evaluate_loop length skipn map combine Qsum fst snd].
    repeat split; [exact Hrun | rewrite Hv; dring | rewrite Hl; dring].
Qed.

Lemma evaluate_value_of self v self' out :
  evaluate self = Ret (v, self', out) -> evaluate_value self = Ret v.
Proof. unfold evaluate_value. intros ->. reflexivity. Qed.

Lemma nth_skipn_head {A} (d : A) : forall n (l : list A) a rest,
  skipn n l = a :: rest -> nth n l d = a.
Proof.
  induction n as [|n IH]; intros [|b l] a rest H; cbn in *; try discriminate.
  - congruence.
  - eauto.
Qed.

(** The result of [evaluate], whatever the derived last weight is. *)
Lemma evaluate_returns self :
  wellSized self ->
  exists v self' out,
    evaluate self = Ret (v, self', out)
    /\ v == mixture (coefValues self) (modelValues self)
    /\ (self' = self \/ self' = set_errorCount self (Int32.incr (_errorCount self))).
Proof.
  unfold wellSized. intros Hsz.
  destruct (evaluate_loop_spec self (_coefProxyList self) (_modelProxyList self)
              0 1 ltac:(lia)) as (v & l & Hrun & Hv & Hl).
  unfold evaluate. rewrite Hrun. cbn [bind].
  destruct (skipn (length (_coefProxyList self)) (_modelProxyList self))
    as [|model rest] eqn:Hskip.
  - apply (f_equal (@length _)) in Hskip. rewrite length_skipn in Hskip.
    cbn in Hskip. lia.
  - assert (Hval : v + modelProxy self model * l
                   == mixture (coefValues self) (modelValues self)).
    { unfold mixture, coefValues, modelValues.
      rewrite length_map.
      rewrite (nth_indep _ 0 (modelProxy self model))
        by (rewrite length_map; lia).
      rewrite map_nth. rewrite (nth_skipn_head _ _ _ _ _ Hskip).
      rewrite Hv, Hl. dring. }
    destruct (Double_lt l 0 || Double_lt 1 l).
    + destruct (Int32.incr (_errorCount self) <=? 10)%Z;
        do 3 eexists; (split; [reflexivity|]); split; auto.
    + do 3 eexists; (split; [reflexivity|]); split; auto.
Qed.

(** The value of [evaluate] is the mixture of the current values. *)
Lemma evaluate_value_mixture self :
  wellSized self ->
  exists v, evaluate_value self = Ret v
            /\ v == mixture (coefValues self) (modelValues self).
Proof.
  intros Hsz.
  destruct (evaluate_returns self Hsz) as (v & self' & out & Hev & Hv & _).
  exists v. split; [exact (evaluate_value_of _ _ _ _ Hev) | exact Hv].
Qed.

(** C1.  For a composite of N models and N-1 coefficients, [evaluate]
    returns, for all coefficient values and model values, the weighted sum
    [sum_i c_i*m_i + (1 - sum_i c_i)*m_n].  The derived last weight is not
    clamped: the statement has no premise on the coefficient values, so the
    value is returned also when that weight lies outside [0,1]. *)
Theorem evaluate_weighted_sum (self : RooAddModel) :
  wellSized self ->
  exists v, evaluate_value self = Ret v
            /\ v == mixture (coefValues self) (modelValues self).
Proof. exact (evaluate_value_mixture self). Qed.

Lemma evaluate_weighted_sum_witness :
  wellSized Sample.degenerate
  /\ exists v, evaluate_value Sample.degenerate = Ret v
               /\ v == mixture (coefValues Sample.degenerate)
                         (modelValues Sample.degenerate).
Proof.
  split; [reflexivity | apply (evaluate_weighted_sum Sample.degenerate); reflexivity].
Defined.

(** ** Construction *)

Lemma ctor_coefLoop_app : forall coefList proxies,
  ctor_coefLoop coefList proxies = proxies ++ coefList.
Proof.
  induction coefList as [|c cs IH]; intros proxies; cbn.
  - now rewrite app_nil_r.
  - rewrite IH, <- app_assoc. reflexivity.
Qed.

Lemma ctor_modelLoop_shared var : forall modelList proxies,
  Forall (fun m => model_convVar m = var) modelList ->
  ctor_modelLoop modelList (Some var) proxies = Ret (proxies ++ modelList).
Proof.
  induction modelList as [|m ms IH]; intros proxies Hall; cbn.
  - now rewrite app_nil_r.
  - inversion Hall as [|? ? Hm Hms]; subst.
    unfold RooAbsArg_eqb. rewrite String.eqb_refl. cbn.
    rewrite IH by assumption. rewrite <- app_assoc. reflexivity.
Qed.

Lemma ctor_modelLoop_first var modelList :
  Forall (fun m => model_convVar m = var) modelList ->
  ctor_modelLoop modelList None [] = Ret modelList.
Proof.
  destruct modelList as [|m ms]; intros Hall; cbn; [reflexivity|].
  inversion Hall as [|? ? Hm Hms]; subst.
  now rewrite ctor_modelLoop_shared.
Qed.

Lemma ctor_succeeds name title modelList coefList var :
  length modelList = S (length coefList) ->
  Forall (fun m => model_convVar m = var) modelList ->
  RooAddModel_ctor name title modelList coefList
  = Ret {| GetName := name; GetTitle := title; x := var;
           _modelProxyList := modelList; _coefProxyList := coefList;
           _isCopy := false; _basis := None; _basisCode := 0%Z;
           _errorCount := 0%Z; _codeReg := RooAICRegistry.empty;
           _proxyNormSet := None |}.
Proof.
  intros Hlen Hall. unfold RooAddModel_ctor.
  destruct modelList as [|first rest]; [discriminate|].
  replace (length (first :: rest) =? length coefList + 1)%nat with true
    by (symmetry; apply Nat.eqb_eq; rewrite Hlen; lia).
  cbn [negb]. rewrite (ctor_modelLoop_first var _ Hall). cbn [bind].
  rewrite ctor_coefLoop_app. cbn [app].
  inversion Hall; subst. reflexivity.
Qed.

(** C7.  Construction from raw lists produces no instance whenever the
    number of models is not one more than the number of coefficients: the
    size check writes its error and stops at [assert(0)] (with no model at
    all, the initialiser of the base class already uses a null pointer).
    With one model more than coefficients, and the models on one
    convolution variable, the instance is produced and holds the two
    lists. *)
Theorem ctor_size_check name title modelList coefList :
  (length modelList <> S (length coefList) ->
     returns (RooAddModel_ctor name title modelList coefList) = false
     /\ (modelList <> [] ->
         RooAddModel_ctor name title modelList coefList
         = AssertFail CoefCountError))
  /\ (length modelList = S (length coefList) ->
      forall var, Forall (fun m => model_convVar m = var) modelList ->
      exists inst,
        RooAddModel_ctor name title modelList coefList = Ret inst
        /\ _modelProxyList inst = modelList
        /\ _coefProxyList inst = coefList).
Proof.
  split.
  - intros Hlen. unfold RooAddModel_ctor.
    destruct modelList as [|first rest]; [split; [reflexivity | congruence]|].
    replace (length (first :: rest) =? length coefList + 1)%nat with false
      by (symmetry; apply Nat.eqb_neq; lia).
    cbn. split; reflexivity.
  - intros Hlen var Hall. eexists. split.
    + apply (ctor_succeeds name title _ _ var Hlen Hall).
    + split; reflexivity.
Qed.

(** Three models with three coefficients fail, three models with two
    coefficients succeed. *)
Lemma ctor_size_check_witness :
  RooAddModel_ctor "sum" "sum"
    [Sample.A; Sample.B; Sample.B']
    [Sample.coef "c1" (1 # 2); Sample.coef "c2" 2; Sample.coef "c3" 2]
  = AssertFail CoefCountError
  /\ exists inst,
      RooAddModel_ctor "sum" "sum"
        [Sample.A; Sample.B; Sample.B']
        [Sample.coef "c1" (1 # 2); Sample.coef "c2" 2] = Ret inst
      /\ _modelProxyList inst = [Sample.A; Sample.B; Sample.B']
      /\ _coefProxyList inst = [Sample.coef "c1" (1 # 2); Sample.coef "c2" 2].
Proof.
  split.
  - apply (ctor_size_check "sum" "sum" [Sample.A; Sample.B; Sample.B']
             [Sample.coef "c1" (1 # 2); Sample.coef "c2" 2; Sample.coef "c3" 2]).
    + cbn. lia.
    + discriminate.
  - apply (proj2 (ctor_size_check "sum" "sum" [Sample.A; Sample.B; Sample.B']
                    [Sample.coef "c1" (1 # 2); Sample.coef "c2" 2])
             eq_refl "t"%string).
    repeat constructor.
Defined.

(** The premise on the convolution variable is needed: two models over
    different convolution variables stop the constructor as well. *)
Lemma ctor_inconsistent_convVar :
  RooAddModel_ctor "sum" "sum" [Sample.A; Sample.other]
    [Sample.coef "c" (1 # 2)]
  = AssertFail ConvVarError.
Proof. reflexivity. Qed.

(** ** Basis code *)

Lemma basisCode_loop_first : forall models name code,
  basisCode_loop models name true code
  = match rev models with
    | [] => code
    | model :: _ => Bool_of_Int (model_basisCode model name)
    end.
Proof.
  induction models as [|m ms IH]; intros name code; cbn; [reflexivity|].
  rewrite IH. destruct (rev ms) as [|m' r]; reflexivity.
Qed.

(** [first] stays true through the loop, so every component overwrites
    [code]: the result is the truth value of the last component's code. *)
Lemma basisCode_last self models model name :
  _modelProxyList self = models ++ [model] ->
  basisCode self name = Int_of_Bool (Bool_of_Int (model_basisCode model name)).
Proof.
  intros H. unfold basisCode. rewrite basisCode_loop_first, H, rev_app_distr.
  reflexivity.
Qed.

(** C4.  [basisCode] does not return what its comment announces (the code
    of the first component when all components support the basis, 0
    otherwise): with a first component that does not support the basis
    (code 0) and a second one that does, it returns 1 instead of 0; and
    with two components that both report the code 5 it returns 1 instead
    of 5. *)
Theorem basisCode_unsupported_component :
  model_basisCode Sample.noBasis "b" = 0%Z
  /\ basisCode Sample.mixedBasis "b" = 1%Z
  /\ basisCode Sample.bothFive "b" = 1%Z.
Proof. repeat split. Qed.

(** ** Negotiation of analytical integrals *)

Lemma firstIteration_null_proxy : forall models allVars normSet allAnalVars,
  firstIteration models allVars normSet allAnalVars = Undefined.
Proof.
  induction models as [|m ms IH]; intros allVars normSet allAnalVars;
    cbn [firstIteration]; [reflexivity|].
  destruct (model_getAnalyticalIntegralWN m allVars normSet). apply IH.
Qed.

Lemma secondIteration_null_proxy :
  forall models allAnalVars normSet subCode allOK out,
    secondIteration models allAnalVars normSet subCode allOK out = Undefined.
Proof.
  induction models as [|m ms IH]; intros allAnalVars normSet subCode allOK out;
    cbn [secondIteration]; [reflexivity|].
  destruct (fst (model_getAnalyticalIntegralWN m allAnalVars normSet) =? 0)%Z;
    apply IH.
Qed.

(** With basis code 0 the call enters the first iteration and ends, after
    the last model, at the null proxy of its loop condition. *)
Lemma getAnalyticalIntegralWN_null_proxy self allVars analVars normSet :
  _basisCode self = 0%Z ->
  getAnalyticalIntegralWN self allVars analVars normSet = Undefined.
Proof.
  intros Hb. unfold getAnalyticalIntegralWN. rewrite Hb. cbn [Z.eqb negb].
  rewrite firstIteration_null_proxy. reflexivity.
Qed.

Lemma getAnalyticalIntegralWN_disabled self allVars analVars normSet :
  _basisCode self <> 0%Z ->
  getAnalyticalIntegralWN self allVars analVars normSet
  = Ret (0%Z, analVars, self, []).
Proof.
  intros Hb. unfold getAnalyticalIntegralWN.
  apply Z.eqb_neq in Hb. rewrite Hb. reflexivity.
Qed.

Lemma masterCode_success_nonzero reg :
  RooAICRegistry.fits reg ->
  Int32.incr (Int32.wrap (Z.of_nat (length reg))) = (Z.of_nat (length reg) + 1)%Z
  /\ Int32.incr (Int32.wrap (Z.of_nat (length reg))) <> 0%Z.
Proof.
  unfold RooAICRegistry.fits, Int32.max_int. intros H.
  rewrite Int32_wrap_small
    by (unfold Int32.in_range, Int32.min_int, Int32.max_int; lia).
  rewrite Int32_incr_small by (unfold Int32.min_int, Int32.max_int; lia).
  split; lia.
Qed.

(** C2.  With an empty common set the negotiation is to return master code
    0; the code does not return at all.  On a composite whose two
    components advertise no requested variable in common (B integrates X
    alone, C nothing), [getAnalyticalIntegralWN] ends, after the last
    model, in the loop condition of the first iteration, which takes
    [absArg()] of a null proxy. *)
Theorem negotiation_empty_intersection :
  _basisCode Sample.disjoint = 0%Z
  /\ advertisedByAll (_modelProxyList Sample.disjoint) Sample.requestXY None = []
  /\ getAnalyticalIntegralWN Sample.disjoint Sample.requestXY
       Sample.callerVars None = Undefined.
Proof.
  split; [reflexivity|]. split; [reflexivity|].
  apply getAnalyticalIntegralWN_null_proxy. reflexivity.
Qed.

(** C3.  With a component that returns code 0 for the common set the
    negotiation is to return master code 0; the code does not return at
    all.  A integrates X and Y jointly (code 1) but not X alone (code 0), B
    integrates X alone; the request of X and Y has the common set X, for
    which A returns 0.  [getAnalyticalIntegralWN] ends at the null proxy of
    the first iteration, and the second iteration is never entered. *)
Theorem negotiation_inconsistent_component :
  componentCode Sample.A Sample.requestXY None = 1%Z
  /\ advertisedByAll (_modelProxyList Sample.inconsistent) Sample.requestXY None
     = ["X"%string]
  /\ componentCode Sample.A ["X"%string] None = 0%Z
  /\ getAnalyticalIntegralWN Sample.inconsistent Sample.requestXY
       Sample.callerVars None = Undefined.
Proof.
  repeat (split; [reflexivity|]).
  apply getAnalyticalIntegralWN_null_proxy. reflexivity.
Qed.

(** C10.  Whenever [getAnalyticalIntegralWN] returns master code 0, the
    output set [analVars] and the object are as they were before the call.
    The same holds of the statements behind each loop, whatever the loop
    hands over: the exit on an empty common set and the exit on [!allOK]
    return [analVars] untouched, and [analVars.add] is only reached
    together with a master code other than 0. *)
Theorem failed_negotiation_keeps_analVars self allVars analVars normSet :
  (forall r,
      getAnalyticalIntegralWN self allVars analVars normSet = Ret r ->
      masterCode_of r = 0%Z ->
      analVars_of r = analVars /\ self_of r = self)
  /\ (forall allAnalVars r,
        confirmCommonSet self analVars normSet allAnalVars = Ret r ->
        masterCode_of r = 0%Z ->
        analVars_of r = analVars /\ self_of r = self)
  /\ (forall allAnalVars subCode allOK out,
        RooAICRegistry.fits (_codeReg self) ->
        (masterCode_of (storePlan self analVars allAnalVars subCode allOK out)
         = 0%Z ->
         analVars_of (storePlan self analVars allAnalVars subCode allOK out)
         = analVars
         /\ self_of (storePlan self analVars allAnalVars subCode allOK out)
            = self)
        /\ (masterCode_of (storePlan self analVars allAnalVars subCode allOK out)
            <> 0%Z ->
            allOK = true
            /\ analVars_of (storePlan self analVars allAnalVars subCode allOK out)
               = ArgSet.add analVars allAnalVars)).
Proof.
  split; [|split].
  - intros r Hr _. unfold getAnalyticalIntegralWN in Hr.
    destruct (negb (_basisCode self =? 0)%Z).
    + inversion Hr. split; reflexivity.
    + rewrite firstIteration_null_proxy in Hr. discriminate.
  - intros allAnalVars r Hr _. unfold confirmCommonSet in Hr.
    destruct (ArgSet.getSize allAnalVars =? 0)%Z.
    + inversion Hr. split; reflexivity.
    + rewrite secondIteration_null_proxy in Hr. discriminate.
  - intros allAnalVars subCode allOK out Hfits. unfold storePlan.
    destruct allOK; cbn [negb].
    + unfold RooAICRegistry.store, masterCode_of, analVars_of, self_of.
      cbn [fst snd].
      destruct (masterCode_success_nonzero _ Hfits) as [_ Hnz].
      split; [intros H; now elim Hnz | intros _; split; reflexivity].
    + split; [intros _; split; reflexivity | intros H; now elim H].
Qed.

Lemma failed_negotiation_keeps_analVars_witness :
  (analVars_of (0%Z, Sample.callerVars, Sample.plainSum, @nil Diag)
   = Sample.callerVars
   /\ self_of (0%Z, Sample.callerVars, Sample.plainSum, @nil Diag)
      = Sample.plainSum)
  /\ analVars_of
       (storePlan Sample.inconsistent Sample.callerVars ["X"%string]
          [0%Z; 2%Z] false [InconsistentIntegrals "A"])
     = Sample.callerVars.
Proof.
  split.
  - apply (proj1 (failed_negotiation_keeps_analVars Sample.plainSum
                    Sample.requestXY Sample.callerVars None)
             (0%Z, Sample.callerVars, Sample.plainSum, [])).
    + reflexivity.
    + reflexivity.
  - apply (proj2 (proj2 (failed_negotiation_keeps_analVars Sample.inconsistent
                           Sample.requestXY Sample.callerVars None))
             ["X"%string] [0%Z; 2%Z] false [InconsistentIntegrals "A"]).
    + vm_compute. reflexivity.
    + reflexivity.
Defined.

(** ** The code registry *)

(** The registry gives back what was stored, and keeps what it held. *)
Lemma retrieve_store reg codeList :
  RooAICRegistry.fits reg ->
  RooAICRegistry.retrieve
    (snd (RooAICRegistry.store reg codeList (length codeList)))
    (fst (RooAICRegistry.store reg codeList (length codeList)))
  = Some codeList.
Proof.
  unfold RooAICRegistry.fits, RooAICRegistry.store, RooAICRegistry.retrieve,
    Int32.max_int.
  intros Hfits. cbn [fst snd].
  rewrite Int32_wrap_small
    by (unfold Int32.in_range, Int32.min_int, Int32.max_int; lia).
  destruct (Z.of_nat (length reg) <? 0)%Z eqn:E; [apply Z.ltb_lt in E; lia|].
  rewrite Nat2Z.id, nth_error_app2 by lia.
  rewrite Nat.sub_diag, firstn_all. reflexivity.
Qed.

Lemma retrieve_old reg codeList size index :
  (Z.to_nat index < length reg)%nat ->
  RooAICRegistry.retrieve (snd (RooAICRegistry.store reg codeList size)) index
  = RooAICRegistry.retrieve reg index.
Proof.
  unfold RooAICRegistry.store, RooAICRegistry.retrieve. intros H. cbn [snd].
  destruct (index <? 0)%Z; [reflexivity|].
  now rewrite nth_error_app1.
Qed.

(** C6.  A negotiation that succeeds is to store its code array and to
    return the index of that array plus 1; the code stores nothing and
    does not return.  Both components of the composite integrate X alone
    with code 2, so the request of X and Y is to store the two codes.
    [getAnalyticalIntegralWN] ends at the null proxy of the first
    iteration, before the registry is reached: no plan is stored and no
    master code is handed out. *)
Theorem negotiation_stores_no_plan :
  advertisedByAll (_modelProxyList Sample.agreeing) Sample.requestXY None
  = ["X"%string]
  /\ map (fun m => componentCode m ["X"%string] None)
       (_modelProxyList Sample.agreeing) = [2%Z; 2%Z]
  /\ getAnalyticalIntegralWN Sample.agreeing Sample.requestXY
       Sample.callerVars None = Undefined.
Proof.
  repeat (split; [reflexivity|]).
  apply getAnalyticalIntegralWN_null_proxy. reflexivity.
Qed.

(** ** Convolution *)

Lemma convolution_coefLoop_app : forall coefs coefList,
  convolution_coefLoop coefs coefList = coefList ++ coefs.
Proof.
  induction coefs as [|c cs IH]; intros coefList; cbn.
  - now rewrite app_nil_r.
  - rewrite IH, <- app_assoc. reflexivity.
Qed.

Lemma convolution_modelLoop_clones conv basis owner :
  forall models clones modelList,
    Forall2 (fun m c => conv m basis owner = Some c) models clones ->
    convolution_modelLoop conv models basis owner modelList
    = Ret (modelList ++ clones).
Proof.
  induction models as [|m ms IH]; intros clones modelList H;
    inversion H as [|? c ? cs Hm Hms]; subst; cbn.
  - now rewrite app_nil_r.
  - rewrite Hm, (IH cs) by assumption. rewrite <- app_assoc. reflexivity.
Qed.

(** C8.  For a composite of N models and N-1 coefficients and a basis whose
    first server is [server]: when [server] is not the convolution variable
    of the composite, [convolution] returns a null pointer and reports both
    variables; when it is, and every component yields its convolved clone
    over that variable, [convolution] returns a new composite, not a copy,
    tagged with the basis, that holds the N clones in order and the
    original coefficients.  Its value is the weighted sum over the clones,
    which for two models and one coefficient [c] is
    [c*conv(m1) + (1-c)*conv(m2)], for every value of [c]. *)
Theorem convolution_of_composite conv self basis owner server :
  wellSized self ->
  findServer basis 0 = Some server ->
  (server <> x self ->
   convolution conv self basis owner
   = Ret (None, [ConvParamMismatch server (x self)]))
  /\ (server = x self ->
      forall clones,
        Forall2 (fun m c => conv m basis owner = Some c
                            /\ model_convVar c = x self)
          (_modelProxyList self) clones ->
        exists convSum v,
          convolution conv self basis owner = Ret (Some convSum, [])
          /\ _modelProxyList convSum = clones
          /\ _coefProxyList convSum = _coefProxyList self
          /\ _isCopy convSum = false
          /\ _basis convSum = Some basis
          /\ GetName convSum = convolution_newName self basis owner
          /\ evaluate_value convSum = Ret v
          /\ v == mixture (coefValues convSum) (modelValues convSum)
          /\ (forall coef k1 k2,
                _coefProxyList self = [coef] -> clones = [k1; k2] ->
                v == coefProxy convSum coef * modelProxy convSum k1
                     + (1 - coefProxy convSum coef) * modelProxy convSum k2)).
Proof.
  intros Hsz Hserver. unfold convolution. rewrite Hserver. split.
  - intros Hne. unfold RooAbsArg_eqb.
    destruct (String.eqb server (x self)) eqn:E; [|reflexivity].
    apply String.eqb_eq in E. contradiction.
  - intros -> clones Hclones.
    unfold RooAbsArg_eqb. rewrite String.eqb_refl. cbn [negb].
    assert (Hmade : Forall2 (fun m c => conv m basis owner = Some c)
                      (_modelProxyList self) clones).
    { eapply Forall2_impl; [|exact Hclones]. intros m c [H _]. exact H. }
    assert (Hvar : Forall (fun c => model_convVar c = x self) clones).
    { clear -Hclones. induction Hclones as [|m c ms cs [_ H] _ IH];
        constructor; assumption. }
    assert (Hlen : length clones = S (length (_coefProxyList self))).
    { rewrite <- (Forall2_length Hclones). exact Hsz. }
    rewrite (convolution_modelLoop_clones conv basis owner _ _ [] Hmade).
    cbn [bind app]. rewrite convolution_coefLoop_app. cbn [app].
    rewrite (ctor_succeeds _ _ _ _ (x self) Hlen Hvar). cbn [bind].
    set (convSum := changeBasis _ basis).
    assert (Hsz' : wellSized convSum) by exact Hlen.
    destruct (evaluate_value_mixture convSum Hsz') as (v & Hev & Hv).
    exists convSum, v.
    repeat (split; [first [reflexivity | assumption]|]).
    intros coef k1 k2 Hcoef ->. rewrite Hv.
    unfold mixture, coefValues, modelValues.
    change (_coefProxyList convSum) with (_coefProxyList self).
    change (_modelProxyList convSum) with [k1; k2].
    rewrite Hcoef. cbn. dring.
Qed.

Lemma convolution_of_composite_witness :
  convolution Sample.convolve Sample.pair Sample.otherBasis "owner"
  = Ret (None, [ConvParamMismatch "u" "t"])
  /\ exists convSum v,
      convolution Sample.convolve Sample.pair Sample.basis "owner"
      = Ret (Some convSum, [])
      /\ map model_GetName (_modelProxyList convSum)
         = ["A_conv_exp"; "B_conv_exp"]%string
      /\ _coefProxyList convSum = _coefProxyList Sample.pair
      /\ evaluate_value convSum = Ret v
      /\ v == (1 # 3) * 4 + (1 - (1 # 3)) * 6.
Proof.
  split.
  - apply (convolution_of_composite Sample.convolve Sample.pair
             Sample.otherBasis "owner" "u"%string eq_refl eq_refl).
    discriminate.
  - destruct (proj2 (convolution_of_composite Sample.convolve Sample.pair
                       Sample.basis "owner" "t"%string eq_refl eq_refl)
                eq_refl
                [Sample.model "A_conv_exp" "t"%string (2 * 2) 1 1 1%Z Sample.onlyX;
                 Sample.model "B_conv_exp" "t"%string (2 * 3) 1 1 1%Z Sample.onlyX])
      as (convSum & v & Hconv & Hmodels & Hcoefs & _ & _ & _ & Hev & _ & Hpair).
    { repeat constructor. }
    exists convSum, v.
    split; [exact Hconv|]. split; [rewrite Hmodels; reflexivity|].
    split; [exact Hcoefs|]. split; [exact Hev|].
    rewrite (Hpair _ _ _ eq_refl eq_refl). cbn. dring.
Defined.

(** ** Normalisation *)

Lemma getNorm_loop_spec self nset : forall coefs models norm lastCoef,
  (length coefs <= length models)%nat ->
  exists n l,
    getNorm_loop self nset coefs models norm lastCoef
      = Ret (n, l, skipn (length coefs) models)
    /\ n == norm
            + Qsum (map (fun cm => fst cm * snd cm)
                      (combine (map (coefProxy self) coefs)
                               (map (fun m => model_getNorm m nset) models)))
    /\ l == lastCoef - Qsum (map (coefProxy self) coefs).
Proof.
  induction coefs as [|coef coefs IH]; intros models norm lastCoef Hlen.
  - exists norm, lastCoef. cbn. repeat split; dring.
  - destruct models as [|model models]; [cbn in Hlen; lia|].
    cbn in Hlen.
    destruct (IH models (norm + model_getNorm model nset * coefProxy self coef)
                (lastCoef - coefProxy self coef) ltac:(lia))
      as (n & l & Hrun & Hn & Hl).
    exists n, l. cbn [getNorm_loop length skipn map combine Qsum fst snd].
    repeat split; [exact Hrun | rewrite Hn; dring | rewrite Hl; dring].
Qed.

Lemma getNormSpecial_loop_spec self nset : forall coefs models norm lastCoef,
  (length coefs <= length models)%nat ->
  exists n l,
    getNormSpecial_loop self nset coefs models norm lastCoef
      = Ret (n, l, skipn (length coefs) models)
    /\ n == norm
            + Qsum (map (fun cm => fst cm * snd cm)
                      (combine (map (coefProxy self) coefs)
                               (map (fun m => model_getNormSpecial m nset) models)))
    /\ l == lastCoef - Qsum (map (coefProxy self) coefs).
Proof.
  induction coefs as [|coef coefs IH]; intros models norm lastCoef Hlen.
  - exists norm, lastCoef. cbn. repeat split; dring.
  - destruct models as [|model models]; [cbn in Hlen; lia|].
    cbn in Hlen.
    destruct (IH models
                (norm + model_getNormSpecial model nset * coefProxy self coef)
                (lastCoef - coefProxy self coef) ltac:(lia))
      as (n & l & Hrun & Hn & Hl).
    exists n, l.
    cbn [getNormSpecial_loop length skipn map combine Qsum fst snd].
    repeat split; [exact Hrun | rewrite Hn; dring | rewrite Hl; dring].
Qed.

(** The tail of a sum of N models after its N-1 paired ones. *)
Lemma last_model_value (f : RooResolutionModel -> Q) :
  forall n models model rest,
    skipn n models = model :: rest ->
    nth n (map f models) 0 = f model.
Proof.
  induction n as [|n IH]; intros [|m ms] model rest H; cbn in *;
    try discriminate.
  - congruence.
  - eauto.
Qed.

Lemma getNorm_weighted_sum absNorm self nset basis :
  _basis self = Some basis -> wellSized self ->
  exists n, result_value (getNorm absNorm self nset) = Ret n
            /\ n == mixture (coefValues self) (normValues self nset).
Proof.
  unfold wellSized. intros Hbasis Hsz.
  destruct (getNorm_loop_spec self nset (_coefProxyList self)
              (_modelProxyList self) 0 1 ltac:(lia)) as (n & l & Hrun & Hn & Hl).
  unfold getNorm. rewrite Hbasis, Hrun. cbn [bind].
  destruct (skipn (length (_coefProxyList self)) (_modelProxyList self))
    as [|model rest] eqn:Hskip.
  - apply (f_equal (@length _)) in Hskip. rewrite length_skipn in Hskip.
    cbn in Hskip. lia.
  - exists (n + model_getNorm model nset * l). split.
    + destruct (Double_lt l 0 || Double_lt 1 l); reflexivity.
    + unfold mixture, coefValues, normValues. rewrite length_map.
      rewrite (last_model_value _ _ _ _ _ Hskip), Hn, Hl. dring.
Qed.

Lemma getNormSpecial_weighted_sum absNorm self nset basis :
  _basis self = Some basis -> wellSized self ->
  exists n, result_value (getNormSpecial absNorm self nset) = Ret n
            /\ n == mixture (coefValues self) (normSpecialValues self nset).
Proof.
  unfold wellSized. intros Hbasis Hsz.
  destruct (getNormSpecial_loop_spec self nset (_coefProxyList self)
              (_modelProxyList self) 0 1 ltac:(lia)) as (n & l & Hrun & Hn & Hl).
  unfold getNormSpecial. rewrite Hbasis, Hrun. cbn [bind].
  destruct (skipn (length (_coefProxyList self)) (_modelProxyList self))
    as [|model rest] eqn:Hskip.
  - apply (f_equal (@length _)) in Hskip. rewrite length_skipn in Hskip.
    cbn in Hskip. lia.
  - exists (n + model_getNormSpecial model nset * l). split.
    + destruct (Double_lt l 0 || Double_lt 1 l); reflexivity.
    + unfold mixture, coefValues, normSpecialValues. rewrite length_map.
      rewrite (last_model_value _ _ _ _ _ Hskip), Hn, Hl. dring.
Qed.

(** The mixture of equal model values is the same mixture. *)
Lemma mixture_ext (f g : RooResolutionModel -> Q) models :
  (forall m, In m models -> f m == g m) ->
  forall cs, mixture cs (map f models) == mixture cs (map g models).
Proof.
  intros Hfg cs. unfold mixture.
  assert (Hsum : forall cs,
             Qsum (map (fun cm => fst cm * snd cm) (combine cs (map f models)))
             == Qsum (map (fun cm => fst cm * snd cm) (combine cs (map g models)))).
  { clear cs. induction models as [|m ms IH]; intros [|c cs]; cbn;
      try reflexivity.
    rewrite (Hfg m (or_introl eq_refl)), (IH (fun k Hk => Hfg k (or_intror Hk))).
    reflexivity. }
  assert (Hnth : forall n, nth n (map f models) 0 == nth n (map g models) 0).
  { clear Hsum cs.
    induction models as [|m ms IH]; intros [|n]; cbn; try reflexivity.
    - apply Hfg. now left.
    - apply IH. intros k Hk. apply Hfg. now right. }
  rewrite Hsum, Hnth. reflexivity.
Qed.

(** C9.  [getNormSpecial] computes the same numeric result as [getNorm]
    for every normalisation set, the [getNormSpecial] of every component
    being the duplicate of its [getNorm]: without a basis both return the
    normalisation of the plain density; with a basis (N models, N-1
    coefficients) both return the same running-coefficient weighted sum of
    the components' normalisations. *)
Theorem getNormSpecial_equals_getNorm absNorm self nset :
  (forall m, In m (_modelProxyList self) ->
             model_getNormSpecial m nset == model_getNorm m nset) ->
  (_basis self = None ->
   getNormSpecial absNorm self nset = getNorm absNorm self nset
   /\ getNorm absNorm self nset = Ret (absNorm self nset, []))
  /\ (_basis self <> None -> wellSized self ->
      exists n n',
        result_value (getNorm absNorm self nset) = Ret n
        /\ result_value (getNormSpecial absNorm self nset) = Ret n'
        /\ n' == n
        /\ n == mixture (coefValues self) (normValues self nset)).
Proof.
  intros Hsame. split.
  - intros Hbasis. unfold getNorm, getNormSpecial. rewrite Hbasis.
    split; reflexivity.
  - intros Hbasis Hsz.
    destruct (_basis self) as [basis|] eqn:E; [|congruence].
    destruct (getNorm_weighted_sum absNorm self nset basis E Hsz)
      as (n & Hrun & Hn).
    destruct (getNormSpecial_weighted_sum absNorm self nset basis E Hsz)
      as (n' & Hrun' & Hn').
    exists n, n'. repeat (split; [assumption|]). split; [|exact Hn].
    rewrite Hn, Hn'. apply (mixture_ext _ _ _ Hsame).
Qed.

Lemma getNormSpecial_equals_getNorm_witness :
  (getNormSpecial Sample.genericNorm Sample.pair None
   = getNorm Sample.genericNorm Sample.pair None
   /\ getNorm Sample.genericNorm Sample.pair None = Ret (1, []))
  /\ exists n n',
      result_value (getNorm Sample.genericNorm Sample.plainSum None) = Ret n
      /\ result_value (getNormSpecial Sample.genericNorm Sample.plainSum None)
         = Ret n'
      /\ n' == n
      /\ n == mixture (coefValues Sample.plainSum)
                (normValues Sample.plainSum None).
Proof.
  split.
  - apply (proj1 (getNormSpecial_equals_getNorm Sample.genericNorm
                    Sample.pair None
                    ltac:(intros m [<-|[<-|[]]]; reflexivity))).
    reflexivity.
  - apply (proj2 (getNormSpecial_equals_getNorm Sample.genericNorm
                    Sample.plainSum None
                    ltac:(intros m [<-|[<-|[]]]; reflexivity))).
    + discriminate.
    + reflexivity.
Defined.

(** ** The warning about degenerate coefficients *)

Lemma Double_lt_compat a a' b b' :
  a == a' -> b == b' -> Double_lt a b = Double_lt a' b'.
Proof.
  intros Ha Hb.
  destruct (Double_lt a b) eqn:E, (Double_lt a' b') eqn:E'; try reflexivity.
  - apply Double_lt_iff in E. rewrite Ha, Hb in E.
    apply Double_lt_iff in E. congruence.
  - apply Double_lt_iff in E'. rewrite <- Ha, <- Hb in E'.
    apply Double_lt_iff in E'. congruence.
Qed.

Lemma degenerate_test self l :
  l == lastWeight self -> degenerateWeight self ->
  Double_lt l 0 || Double_lt 1 l = true.
Proof.
  intros Hl [H|H]; apply orb_true_iff; [left|right];
    apply Double_lt_iff; rewrite Hl; exact H.
Qed.

(** A degenerate call of [evaluate] counts one more occurrence, and writes
    only while the count is at most 10. *)
Lemma evaluate_degenerate self :
  wellSized self -> degenerateWeight self ->
  exists v l,
    evaluate self
    = Ret (v, set_errorCount self (Int32.incr (_errorCount self)),
           if (Int32.incr (_errorCount self) <=? 10)%Z then
             CoefRangeWarning "evaluate" (1 - l)
               :: (if (Int32.incr (_errorCount self) =? 10)%Z
                   then [NoMoreWillBePrinted] else [])
           else []).
Proof.
  unfold wellSized. intros Hsz Hdeg.
  destruct (evaluate_loop_spec self (_coefProxyList self) (_modelProxyList self)
              0 1 ltac:(lia)) as (v & l & Hrun & Hv & Hl).
  unfold evaluate. rewrite Hrun. cbn [bind].
  destruct (skipn (length (_coefProxyList self)) (_modelProxyList self))
    as [|model rest] eqn:Hskip.
  - apply (f_equal (@length _)) in Hskip. rewrite length_skipn in Hskip.
    cbn in Hskip. lia.
  - rewrite (degenerate_test self l Hl Hdeg).
    exists (v + modelProxy self model * l), l.
    destruct (Int32.incr (_errorCount self) <=? 10)%Z; reflexivity.
Qed.

(** X1.  The warning of [evaluate] is limited to the first ten occurrences:
    starting from a count of [c], the call number [k] (counted from 0) of a
    run of degenerate calls writes the warning when [c + k < 10] and writes
    nothing from then on. *)
Lemma evaluate_warning_rate_limited : forall n self,
  wellSized self -> degenerateWeight self ->
  (0 <= _errorCount self)%Z ->
  (_errorCount self + Z.of_nat n <= Int32.max_int)%Z ->
  exists self' outs,
    repeatCalls evaluate n self = Ret (self', outs)
    /\ length outs = n
    /\ forall k, (k < n)%nat ->
         ((_errorCount self + Z.of_nat k < 10)%Z -> nth k outs [] <> [])
         /\ ((10 <= _errorCount self + Z.of_nat k)%Z -> nth k outs [] = []).
Proof.
  induction n as [|n IH]; intros self Hsz Hdeg Hpos Hmax.
  - exists self, []. repeat split; try reflexivity; lia.
  - destruct (evaluate_degenerate self Hsz Hdeg) as (v & l & Hev).
    assert (Hincr : Int32.incr (_errorCount self) = (_errorCount self + 1)%Z).
    { apply Int32_incr_small. unfold Int32.min_int, Int32.max_int in *. lia. }
    rewrite Hincr in Hev.
    destruct (IH (set_errorCount self (_errorCount self + 1)%Z) Hsz Hdeg)
      as (self' & outs & Hrun & Hlen & Hk).
    { cbn [set_errorCount _errorCount]. lia. }
    { cbn [set_errorCount _errorCount]. lia. }
    cbn [repeatCalls]. rewrite Hev. cbn [bind]. rewrite Hrun. cbn [bind].
    do 2 eexists. split; [reflexivity|]. split; [cbn; now rewrite Hlen|].
    intros [|k] Hlt; cbn [nth].
    + split; intros H.
      * replace (_errorCount self + 1 <=? 10)%Z with true
          by (symmetry; apply Z.leb_le; lia).
        discriminate.
      * replace (_errorCount self + 1 <=? 10)%Z with false
          by (symmetry; apply Z.leb_gt; lia).
        reflexivity.
    + specialize (Hk k ltac:(lia)). cbn [set_errorCount _errorCount] in Hk.
      destruct Hk as [Hk1 Hk2]. split; intros H; [apply Hk1|apply Hk2]; lia.
Qed.

Lemma analyticalIntegralWN_loop_null_proxy normSet subCode :
  forall coefs models i value lastCoef,
    analyticalIntegralWN_loop normSet subCode coefs models i value lastCoef
    = Undefined.
Proof.
  induction coefs as [|coef coefs IH]; intros models i value lastCoef;
    cbn [analyticalIntegralWN_loop]; [reflexivity|].
  destruct models as [|model models]; [reflexivity|].
  destruct (nth_error subCode i); [apply IH | reflexivity].
Qed.

(** C5.  With a derived last weight outside [0,1] the analytic integral is
    to return its value and to limit its warning as [evaluate] does; the
    code returns no value.  On a composite of two models whose coefficient
    is 2 (derived last weight -1), the
    negotiation ends at the null proxy of its first iteration, and with no
    plan stored a call of [analyticalIntegralWN] with the code 1 stops at
    [assert(0)]; the warning about the coefficients is never reached.  On
    the same object [evaluate] returns its value at every call, writes the
    warning up to the 10th occurrence and nothing at the 11th and 12th. *)
Theorem degenerate_integral_returns_no_value :
  Double_lt (lastWeight Sample.overweight) 0 = true
  /\ getAnalyticalIntegralWN Sample.overweight Sample.requestXY
       Sample.callerVars None = Undefined
  /\ analyticalIntegralWN Sample.overweight 1%Z None
     = AssertFail (UnrecognizedCode 1%Z)
  /\ (exists self' outs,
         repeatCalls evaluate 12 Sample.overweight = Ret (self', outs)
         /\ nth 9 outs [] = [CoefRangeWarning "evaluate" 2; NoMoreWillBePrinted]
         /\ nth 10 outs [NoMoreWillBePrinted] = []
         /\ nth 11 outs [NoMoreWillBePrinted] = []).
Proof.
  split; [reflexivity|]. split.
  - apply getAnalyticalIntegralWN_null_proxy. reflexivity.
  - split; [reflexivity|].
    do 2 eexists. split; [vm_compute; reflexivity|].
    repeat split.
Qed.

(** * Further properties *)

(** ** Evaluation: text, count of occurrences and bounds *)

Lemma evaluate_warning_rate_limited_witness :
  exists self' outs,
    repeatCalls evaluate 12 Sample.degenerate = Ret (self', outs)
    /\ length outs = 12%nat
    /\ forall k, (k < 12)%nat ->
         ((_errorCount Sample.degenerate + Z.of_nat k < 10)%Z ->
          nth k outs [] <> [])
         /\ ((10 <= _errorCount Sample.degenerate + Z.of_nat k)%Z ->
             nth k outs [] = []).
Proof.
  apply (evaluate_warning_rate_limited 12 Sample.degenerate).
  - reflexivity.
  - left. reflexivity.
  - vm_compute. discriminate.
  - vm_compute. discriminate.
Defined.

Lemma Double_lt_false a b : ~ a < b -> Double_lt a b = false.
Proof.
  intros H. destruct (Double_lt a b) eqn:E; [|reflexivity].
  apply Double_lt_iff in E. contradiction.
Qed.

(** One call of [evaluate], with the derived last weight and the value
    named. *)
Lemma evaluate_unfold self :
  (length (_coefProxyList self) < length (_modelProxyList self))%nat ->
  exists v l,
    l == lastWeight self
    /\ v == mixture (coefValues self) (modelValues self)
    /\ evaluate self
       = if Double_lt l 0 || Double_lt 1 l then
           if (Int32.incr (_errorCount self) <=? 10)%Z then
             Ret (v, set_errorCount self (Int32.incr (_errorCount self)),
                  CoefRangeWarning "evaluate" (1 - l)
                    :: (if (Int32.incr (_errorCount self) =? 10)%Z
                        then [NoMoreWillBePrinted] else []))
           else Ret (v, set_errorCount self (Int32.incr (_errorCount self)), [])
         else Ret (v, self, []).
Proof.
  intros Hsz.
  destruct (evaluate_loop_spec self (_coefProxyList self) (_modelProxyList self)
              0 1 ltac:(lia)) as (v & l & Hrun & Hv & Hl).
  unfold evaluate. rewrite Hrun. cbn [bind].
  destruct (skipn (length (_coefProxyList self)) (_modelProxyList self))
    as [|model rest] eqn:Hskip.
  - apply (f_equal (@length _)) in Hskip. rewrite length_skipn in Hskip.
    cbn in Hskip. lia.
  - exists (v + modelProxy self model * l), l.
    split; [exact Hl|]. split; [|reflexivity].
    unfold mixture, coefValues, modelValues. rewrite length_map.
    rewrite (last_model_value _ _ _ _ _ Hskip), Hv, Hl. dring.
Qed.

(** X2.  With the derived last weight inside [0,1], [evaluate] returns the
    mixture, writes nothing and leaves the object, its count of
    occurrences included, as it was. *)
Theorem evaluate_in_range_silent self :
  wellSized self ->
  0 <= lastWeight self -> lastWeight self <= 1 ->
  exists v, evaluate self = Ret (v, self, [])
            /\ v == mixture (coefValues self) (modelValues self).
Proof.
  unfold wellSized. intros Hsz Hlo Hhi.
  destruct (evaluate_unfold self ltac:(lia)) as (v & l & Hl & Hv & Hev).
  exists v. split; [|exact Hv]. rewrite Hev.
  rewrite (Double_lt_false l 0), (Double_lt_false 1 l); [reflexivity| |];
    rewrite Hl; apply Qle_not_lt; assumption.
Qed.

Lemma evaluate_in_range_silent_witness :
  exists v, evaluate Sample.inRange = Ret (v, Sample.inRange, [])
            /\ v == mixture (coefValues Sample.inRange)
                      (modelValues Sample.inRange).
Proof.
  apply (evaluate_in_range_silent Sample.inRange).
  - reflexivity.
  - vm_compute. discriminate.
  - vm_compute. discriminate.
Defined.

(** X3.  One degenerate call of [evaluate] on an object that has counted [c]
    occurrences returns the mixture all the same and counts [c + 1]; it
    writes the warning, with the sum of the coefficients as its value, for
    [c < 9], the warning followed by the notice that no more will be
    printed for [c = 9], and nothing for [c >= 10]. *)
Theorem evaluate_degenerate_call self :
  wellSized self -> degenerateWeight self ->
  (0 <= _errorCount self < Int32.max_int)%Z ->
  exists v s,
    s == Qsum (coefValues self)
    /\ v == mixture (coefValues self) (modelValues self)
    /\ evaluate self
       = Ret (v, set_errorCount self (_errorCount self + 1)%Z,
              if (_errorCount self <? 9)%Z then [CoefRangeWarning "evaluate" s]
              else if (_errorCount self =? 9)%Z
                   then [CoefRangeWarning "evaluate" s; NoMoreWillBePrinted]
                   else []).
Proof.
  unfold wellSized. intros Hsz Hdeg Hc.
  destruct (evaluate_unfold self ltac:(lia)) as (v & l & Hl & Hv & Hev).
  exists v, (1 - l). split; [rewrite Hl; unfold lastWeight; dring|].
  split; [exact Hv|]. rewrite Hev, (degenerate_test self l Hl Hdeg).
  rewrite Int32_incr_small
    by (unfold Int32.min_int, Int32.max_int in *; lia).
  destruct (_errorCount self <? 9)%Z eqn:E9.
  - apply Z.ltb_lt in E9.
    replace (_errorCount self + 1 <=? 10)%Z with true
      by (symmetry; apply Z.leb_le; lia).
    replace (_errorCount self + 1 =? 10)%Z with false
      by (symmetry; apply Z.eqb_neq; lia).
    reflexivity.
  - apply Z.ltb_ge in E9.
    destruct (_errorCount self =? 9)%Z eqn:E.
    + apply Z.eqb_eq in E. rewrite E. reflexivity.
    + apply Z.eqb_neq in E.
      replace (_errorCount self + 1 <=? 10)%Z with false
        by (symmetry; apply Z.leb_gt; lia).
      reflexivity.
Qed.

Lemma evaluate_degenerate_call_witness :
  exists v s,
    s == Qsum (coefValues Sample.degenerate)
    /\ v == mixture (coefValues Sample.degenerate)
              (modelValues Sample.degenerate)
    /\ evaluate (set_errorCount Sample.degenerate 9%Z)
       = Ret (v, set_errorCount Sample.degenerate 10%Z,
              [CoefRangeWarning "evaluate" s; NoMoreWillBePrinted]).
Proof.
  apply (evaluate_degenerate_call (set_errorCount Sample.degenerate 9%Z)).
  - reflexivity.
  - left. reflexivity.
  - vm_compute. split; [discriminate | reflexivity].
Defined.

Lemma evaluate_loop_short self : forall coefs models value lastCoef,
  (length models <= length coefs)%nat ->
  evaluate_loop self coefs models value lastCoef = Undefined
  \/ exists v l, evaluate_loop self coefs models value lastCoef = Ret (v, l, []).
Proof.
  induction coefs as [|coef coefs IH]; intros models value lastCoef Hlen.
  - destruct models; [|cbn in Hlen; lia]. right. do 2 eexists. reflexivity.
  - destruct models as [|model models]; [left; reflexivity|].
    cbn in Hlen. cbn [evaluate_loop]. apply IH. lia.
Qed.

Lemma evaluate_loop_extra self extra : forall coefs models value lastCoef v l rest,
  evaluate_loop self coefs models value lastCoef = Ret (v, l, rest) ->
  evaluate_loop self coefs (models ++ extra) value lastCoef
  = Ret (v, l, rest ++ extra).
Proof.
  induction coefs as [|coef coefs IH]; intros models value lastCoef v l rest H.
  - cbn in *. congruence.
  - destruct models as [|model models]; [discriminate|].
    cbn [evaluate_loop app] in *. now apply IH.
Qed.

Lemma evaluate_loop_same_proxies self self' :
  _proxyNormSet self = _proxyNormSet self' ->
  forall coefs models value lastCoef,
    evaluate_loop self coefs models value lastCoef
    = evaluate_loop self' coefs models value lastCoef.
Proof.
  intros Hset. induction coefs as [|coef coefs IH]; intros models value lastCoef;
    [reflexivity|].
  destruct models as [|model models]; [reflexivity|].
  cbn [evaluate_loop]. unfold modelProxy, coefProxy. rewrite Hset. apply IH.
Qed.

(** X4.  [evaluate] returns exactly when a model follows the paired ones,
    that is when there are fewer coefficients than models; with as many
    coefficients as models, or more, it uses a null model proxy.  The
    models after that one are never read: appending models to the list
    does not change the value. *)
Theorem evaluate_model_bounds self :
  (returns (evaluate self) = true
   <-> (length (_coefProxyList self) < length (_modelProxyList self))%nat)
  /\ ((length (_modelProxyList self) <= length (_coefProxyList self))%nat ->
      evaluate self = Undefined)
  /\ ((length (_coefProxyList self) < length (_modelProxyList self))%nat ->
      forall extra,
        evaluate_value (set_models self (_modelProxyList self ++ extra))
        = evaluate_value self).
Proof.
  assert (Hshort : (length (_modelProxyList self) <= length (_coefProxyList self))%nat
                   -> evaluate self = Undefined).
  { intros Hlen. unfold evaluate.
    destruct (evaluate_loop_short self _ _ 0 1 Hlen) as [H|(v & l & H)];
      rewrite H; reflexivity. }
  split; [|split; [exact Hshort|]].
  - split.
    + intros Hret.
      destruct (Nat.lt_ge_cases (length (_coefProxyList self))
                  (length (_modelProxyList self))) as [H|H]; [exact H|].
      rewrite (Hshort H) in Hret. discriminate.
    + intros Hlen.
      destruct (evaluate_unfold self Hlen) as (v & l & _ & _ & Hev).
      rewrite Hev.
      destruct (Double_lt l 0 || Double_lt 1 l); [|reflexivity].
      destruct (Int32.incr (_errorCount self) <=? 10)%Z; reflexivity.
  - intros Hlen extra.
    destruct (evaluate_loop_spec self (_coefProxyList self)
                (_modelProxyList self) 0 1 ltac:(lia))
      as (v & l & Hrun & _ & _).
    destruct (skipn (length (_coefProxyList self)) (_modelProxyList self))
      as [|model rest] eqn:Hskip.
    { apply (f_equal (@length _)) in Hskip. rewrite length_skipn in Hskip.
      cbn in Hskip. lia. }
    pose proof (evaluate_loop_extra self extra _ _ _ _ _ _ _ Hrun) as Hrun'.
    unfold evaluate_value, evaluate.
    cbn [set_models _coefProxyList _modelProxyList _errorCount].
    rewrite (evaluate_loop_same_proxies
               (set_models self (_modelProxyList self ++ extra)) self eq_refl).
    rewrite Hrun, Hrun'. cbn [bind app].
    change (modelProxy (set_models self (_modelProxyList self ++ extra)))
      with (modelProxy self).
    destruct (Double_lt l 0 || Double_lt 1 l); [|reflexivity].
    destruct (Int32.incr (_errorCount self) <=? 10)%Z; reflexivity.
Qed.

Lemma evaluate_model_bounds_witness :
  evaluate Sample.tooManyCoefs = Undefined
  /\ evaluate_value
       (set_models Sample.pair (_modelProxyList Sample.pair ++ [Sample.C]))
     = evaluate_value Sample.pair.
Proof.
  split.
  - apply (proj1 (proj2 (evaluate_model_bounds Sample.tooManyCoefs))).
    cbn. lia.
  - apply (proj2 (proj2 (evaluate_model_bounds Sample.pair))).
    cbn. lia.
Defined.

(** ** Normalisation: the warning *)

Lemma getNorm_unfold absNorm self nset basis :
  _basis self = Some basis -> wellSized self ->
  exists n l,
    l == lastWeight self
    /\ getNorm absNorm self nset
       = if Double_lt l 0 || Double_lt 1 l
         then Ret (n, [CoefRangeWarning "evaluate" (1 - l)])
         else Ret (n, []).
Proof.
  unfold wellSized. intros Hbasis Hsz.
  destruct (getNorm_loop_spec self nset (_coefProxyList self)
              (_modelProxyList self) 0 1 ltac:(lia)) as (n & l & Hrun & _ & Hl).
  unfold getNorm. rewrite Hbasis, Hrun. cbn [bind].
  destruct (skipn (length (_coefProxyList self)) (_modelProxyList self))
    as [|model rest] eqn:Hskip.
  - apply (f_equal (@length _)) in Hskip. rewrite length_skipn in Hskip.
    cbn in Hskip. lia.
  - exists (n + model_getNorm model nset * l), l. split; [exact Hl|reflexivity].
Qed.

Lemma getNormSpecial_unfold absNorm self nset basis :
  _basis self = Some basis -> wellSized self ->
  exists n l,
    l == lastWeight self
    /\ getNormSpecial absNorm self nset
       = if Double_lt l 0 || Double_lt 1 l
         then Ret (n, [CoefRangeWarning "evaluate" (1 - l)])
         else Ret (n, []).
Proof.
  unfold wellSized. intros Hbasis Hsz.
  destruct (getNormSpecial_loop_spec self nset (_coefProxyList self)
              (_modelProxyList self) 0 1 ltac:(lia)) as (n & l & Hrun & _ & Hl).
  unfold getNormSpecial. rewrite Hbasis, Hrun. cbn [bind].
  destruct (skipn (length (_coefProxyList self)) (_modelProxyList self))
    as [|model rest] eqn:Hskip.
  - apply (f_equal (@length _)) in Hskip. rewrite length_skipn in Hskip.
    cbn in Hskip. lia.
  - exists (n + model_getNormSpecial model nset * l), l.
    split; [exact Hl|reflexivity].
Qed.

(** X5.  On a composite with a basis, [getNorm] and [getNormSpecial] write
    the warning about the coefficients exactly when the derived last weight
    lies outside [0,1], at every such call whatever the count of
    occurrences; the warning carries the sum of the coefficients and names
    [evaluate] as its origin.  Inside [0,1] they write nothing. *)
Theorem getNorm_warning absNorm self nset basis :
  _basis self = Some basis -> wellSized self ->
  (degenerateWeight self ->
   exists n n' s s',
     s == Qsum (coefValues self) /\ s' == Qsum (coefValues self)
     /\ getNorm absNorm self nset = Ret (n, [CoefRangeWarning "evaluate" s])
     /\ getNormSpecial absNorm self nset
        = Ret (n', [CoefRangeWarning "evaluate" s']))
  /\ (0 <= lastWeight self -> lastWeight self <= 1 ->
      exists n n',
        getNorm absNorm self nset = Ret (n, [])
        /\ getNormSpecial absNorm self nset = Ret (n', [])).
Proof.
  intros Hbasis Hsz.
  destruct (getNorm_unfold absNorm self nset basis Hbasis Hsz)
    as (n & l & Hl & Hrun).
  destruct (getNormSpecial_unfold absNorm self nset basis Hbasis Hsz)
    as (n' & l' & Hl' & Hrun').
  split.
  - intros Hdeg. exists n, n', (1 - l), (1 - l').
    rewrite Hrun, Hrun', (degenerate_test self l Hl Hdeg),
      (degenerate_test self l' Hl' Hdeg).
    repeat split; [rewrite Hl | rewrite Hl']; unfold lastWeight; dring.
  - intros Hlo Hhi. exists n, n'. rewrite Hrun, Hrun'.
    rewrite (Double_lt_false l 0), (Double_lt_false 1 l),
      (Double_lt_false l' 0), (Double_lt_false 1 l');
      [split; reflexivity| | | |];
      first [rewrite Hl | rewrite Hl']; apply Qle_not_lt; assumption.
Qed.

Lemma getNorm_warning_witness :
  exists n n' s s',
    s == Qsum (coefValues (changeBasis Sample.degenerate Sample.basis))
    /\ s' == Qsum (coefValues (changeBasis Sample.degenerate Sample.basis))
    /\ getNorm Sample.genericNorm
         (set_errorCount (changeBasis Sample.degenerate Sample.basis) 50%Z) None
       = Ret (n, [CoefRangeWarning "evaluate" s])
    /\ getNormSpecial Sample.genericNorm
         (set_errorCount (changeBasis Sample.degenerate Sample.basis) 50%Z) None
       = Ret (n', [CoefRangeWarning "evaluate" s']).
Proof.
  apply (proj1 (getNorm_warning Sample.genericNorm
                  (set_errorCount (changeBasis Sample.degenerate Sample.basis)
                     50%Z)
                  None Sample.basis eq_refl eq_refl)).
  left. reflexivity.
Defined.

(** ** Basis code: the general form *)

(** X6.  [basisCode] is 0 for a composite without models, and otherwise
    depends on the last component alone: it is 1 when that component
    reports a code other than 0 for the basis, whatever its value, and 0
    when it reports 0; what the components before it report is never
    seen. *)
Theorem basisCode_of_last_component self name :
  (_modelProxyList self = [] -> basisCode self name = 0%Z)
  /\ (forall models model,
        _modelProxyList self = models ++ [model] ->
        basisCode self name
        = if (model_basisCode model name =? 0)%Z then 0%Z else 1%Z).
Proof.
  split.
  - intros H. unfold basisCode. rewrite H. reflexivity.
  - intros models model H.
    rewrite (basisCode_last self models model name H).
    unfold Int_of_Bool, Bool_of_Int.
    destruct (model_basisCode model name =? 0)%Z; reflexivity.
Qed.

Lemma basisCode_of_last_component_witness :
  basisCode (Sample.composite [] []) "b" = 0%Z
  /\ basisCode Sample.mixedBasis "b" = 1%Z.
Proof.
  split.
  - apply (proj1 (basisCode_of_last_component (Sample.composite [] []) "b")).
    reflexivity.
  - apply (proj2 (basisCode_of_last_component Sample.mixedBasis "b")
             [Sample.noBasis] Sample.B eq_refl).
Defined.

(** ** Construction: the convolution variable *)

Lemma ctor_modelLoop_mismatch var : forall modelList proxies,
  (exists m, In m modelList /\ model_convVar m <> var) ->
  ctor_modelLoop modelList (Some var) proxies = AssertFail ConvVarError.
Proof.
  induction modelList as [|m ms IH]; intros proxies (k & Hin & Hne);
    [destruct Hin|].
  cbn [ctor_modelLoop]. unfold RooAbsArg_eqb.
  destruct (String.eqb (model_convVar m) var) eqn:E; cbn [negb];
    [|reflexivity].
  apply String.eqb_eq in E. apply IH. exists k. split; [|exact Hne].
  destruct Hin as [->|Hin]; [contradiction|exact Hin].
Qed.

Lemma ctor_modelLoop_returns var : forall modelList proxies result,
  ctor_modelLoop modelList (Some var) proxies = Ret result ->
  Forall (fun m => model_convVar m = var) modelList
  /\ result = proxies ++ modelList.
Proof.
  induction modelList as [|m ms IH]; intros proxies result H; cbn in H.
  - inversion H. split; [constructor | now rewrite app_nil_r].
  - unfold RooAbsArg_eqb in H.
    destruct (String.eqb (model_convVar m) var) eqn:E; cbn in H;
      [|discriminate].
    apply String.eqb_eq in E. destruct (IH _ _ H) as [Hall ->].
    split; [constructor; assumption | now rewrite <- app_assoc].
Qed.

(** What the constructor returns, when it returns. *)
Lemma ctor_returns_inv name title modelList coefList inst :
  RooAddModel_ctor name title modelList coefList = Ret inst ->
  length modelList = S (length coefList)
  /\ Forall (fun m => model_convVar m = x inst) modelList
  /\ _modelProxyList inst = modelList
  /\ _coefProxyList inst = coefList
  /\ _isCopy inst = false
  /\ _basis inst = None
  /\ GetName inst = name.
Proof.
  unfold RooAddModel_ctor. destruct modelList as [|first rest]; [discriminate|].
  destruct (length (first :: rest) =? length coefList + 1)%nat eqn:E;
    cbn [negb]; [|discriminate].
  apply Nat.eqb_eq in E. cbn [ctor_modelLoop app].
  destruct (ctor_modelLoop rest (Some (model_convVar first)) [first])
    as [models| |] eqn:Hloop; cbn [bind]; try discriminate.
  intros H. inversion H; subst; clear H. cbn.
  destruct (ctor_modelLoop_returns _ _ _ _ Hloop) as [Hall ->].
  rewrite ctor_coefLoop_app.
  repeat split; try reflexivity; [cbn in E; lia|].
  constructor; [reflexivity | exact Hall].
Qed.

(** X7.  The constructor returns an instance exactly when there is one model
    more than coefficients and all models use one convolution variable.
    With the right sizes and a model on another convolution variable than
    the first, it writes the error about the convolution variable and
    stops at [assert(0)]; with the wrong sizes, the error about the number
    of coefficients comes first, whatever the convolution variables. *)
Theorem ctor_convVar_check name title first rest coefList :
  (returns (RooAddModel_ctor name title (first :: rest) coefList) = true
   <-> length rest = length coefList
       /\ Forall (fun m => model_convVar m = model_convVar first) rest)
  /\ (length rest = length coefList ->
      (exists m, In m rest /\ model_convVar m <> model_convVar first) ->
      RooAddModel_ctor name title (first :: rest) coefList
      = AssertFail ConvVarError)
  /\ (length rest <> length coefList ->
      RooAddModel_ctor name title (first :: rest) coefList
      = AssertFail CoefCountError).
Proof.
  assert (Hsize : length rest <> length coefList ->
                  RooAddModel_ctor name title (first :: rest) coefList
                  = AssertFail CoefCountError).
  { intros Hne. unfold RooAddModel_ctor.
    replace (length (first :: rest) =? length coefList + 1)%nat with false
      by (symmetry; apply Nat.eqb_neq; cbn; lia).
    reflexivity. }
  assert (Hvar : length rest = length coefList ->
                 (exists m, In m rest /\ model_convVar m <> model_convVar first) ->
                 RooAddModel_ctor name title (first :: rest) coefList
                 = AssertFail ConvVarError).
  { intros Hlen Hex. unfold RooAddModel_ctor.
    replace (length (first :: rest) =? length coefList + 1)%nat with true
      by (symmetry; apply Nat.eqb_eq; cbn; lia).
    cbn [negb ctor_modelLoop app].
    rewrite (ctor_modelLoop_mismatch _ _ _ Hex). reflexivity. }
  split; [|split; assumption].
  split.
  - intros Hret.
    destruct (RooAddModel_ctor name title (first :: rest) coefList)
      as [inst| |] eqn:E; try discriminate.
    destruct (ctor_returns_inv _ _ _ _ _ E) as (Hlen & Hall & _).
    split; [cbn in Hlen; lia|].
    inversion Hall as [|? ? Hfirst Hrest]; subst.
    rewrite Hfirst. exact Hrest.
  - intros [Hlen Hall].
    rewrite (ctor_succeeds name title (first :: rest) coefList
               (model_convVar first)); [reflexivity | cbn; lia |].
    constructor; [reflexivity | exact Hall].
Qed.

Lemma ctor_convVar_check_witness :
  RooAddModel_ctor "sum" "sum" [Sample.A; Sample.B; Sample.other]
    [Sample.coef "c1" (1 # 2); Sample.coef "c2" (1 # 4)]
  = AssertFail ConvVarError
  /\ RooAddModel_ctor "sum" "sum" [Sample.A; Sample.other]
       [Sample.coef "c1" (1 # 2); Sample.coef "c2" (1 # 4)]
     = AssertFail CoefCountError.
Proof.
  split.
  - apply (proj1 (proj2 (ctor_convVar_check "sum" "sum" Sample.A
                           [Sample.B; Sample.other]
                           [Sample.coef "c1" (1 # 2); Sample.coef "c2" (1 # 4)]))
             eq_refl).
    exists Sample.other. split; [right; left; reflexivity | discriminate].
  - apply (proj2 (proj2 (ctor_convVar_check "sum" "sum" Sample.A
                           [Sample.other]
                           [Sample.coef "c1" (1 # 2); Sample.coef "c2" (1 # 4)]))).
    cbn. lia.
Defined.

(** ** Convolution: what can come out, and who owns the components *)

Lemma convolution_modelLoop_inv conv basis owner :
  forall models modelList result,
    convolution_modelLoop conv models basis owner modelList = Ret result ->
    exists clones,
      result = modelList ++ clones
      /\ Forall2 (fun m c => conv m basis owner = Some c) models clones.
Proof.
  induction models as [|m ms IH]; intros modelList result H; cbn in H.
  - inversion H. exists []. split; [now rewrite app_nil_r | constructor].
  - destruct (conv m basis owner) as [c|] eqn:Hc; [|discriminate].
    destruct (IH _ _ H) as (clones & -> & Hall).
    exists (c :: clones). split; [now rewrite <- app_assoc|].
    constructor; assumption.
Qed.

Lemma convolution_returns_inv conv self basis owner res out :
  convolution conv self basis owner = Ret (res, out) ->
  (res = None
   /\ exists server,
        findServer basis 0 = Some server /\ server <> x self
        /\ out = [ConvParamMismatch server (x self)])
  \/ (exists convSum,
        res = Some convSum
        /\ out = []
        /\ findServer basis 0 = Some (x self)
        /\ wellSized self
        /\ Forall2 (fun m c => conv m basis owner = Some c)
             (_modelProxyList self) (_modelProxyList convSum)
        /\ Forall (fun c => model_convVar c = x convSum)
             (_modelProxyList convSum)
        /\ _coefProxyList convSum = _coefProxyList self
        /\ _isCopy convSum = false
        /\ _basis convSum = Some basis).
Proof.
  unfold convolution.
  destruct (findServer basis 0) as [server|]; [|discriminate].
  unfold RooAbsArg_eqb.
  destruct (String.eqb server (x self)) eqn:E; cbn [negb].
  - apply String.eqb_eq in E. subst server.
    destruct (convolution_modelLoop conv (_modelProxyList self) basis owner [])
      as [modelList| |] eqn:Hloop; cbn [bind]; try discriminate.
    destruct (RooAddModel_ctor _ _ modelList _) as [inst| |] eqn:Hctor;
      cbn [bind]; try discriminate.
    intros H. inversion H; subst; clear H. right.
    destruct (convolution_modelLoop_inv _ _ _ _ _ _ Hloop)
      as (clones & -> & Hclones). cbn [app] in Hctor.
    destruct (ctor_returns_inv _ _ _ _ _ Hctor)
      as (Hlen & Hvar & Hmodels & Hcoefs & Hcopy & _ & _).
    rewrite convolution_coefLoop_app in Hlen, Hcoefs. cbn [app] in Hlen, Hcoefs.
    exists (changeBasis inst basis).
    cbn [changeBasis _modelProxyList _coefProxyList _isCopy _basis x].
    rewrite Hmodels, Hcoefs.
    repeat split; try assumption; try reflexivity.
    unfold wellSized. rewrite (Forall2_length Hclones). exact Hlen.
  - intros H. inversion H; subst; clear H. left. split; [reflexivity|].
    exists server. repeat split.
    intros ->. rewrite String.eqb_refl in E. discriminate.
Qed.

(** X8.  When [convolution] returns, it is in one of two ways.  Either it
    returns a null pointer, and then the first server of the basis is not
    the convolution variable and the mismatch was reported; or it returns a
    composite, and then nothing was written, the first server is the
    convolution variable, the composite had one model more than
    coefficients, every component returned its convolution, the clones
    share the convolution variable of the result, and the result holds the
    clones with the original coefficients, is not a copy and carries the
    basis. *)
Theorem convolution_outcomes conv self basis owner res out :
  convolution conv self basis owner = Ret (res, out) ->
  (res = None
   /\ exists server,
        findServer basis 0 = Some server /\ server <> x self
        /\ out = [ConvParamMismatch server (x self)])
  \/ (exists convSum,
        res = Some convSum
        /\ out = []
        /\ findServer basis 0 = Some (x self)
        /\ wellSized self
        /\ Forall2 (fun m c => conv m basis owner = Some c)
             (_modelProxyList self) (_modelProxyList convSum)
        /\ Forall (fun c => model_convVar c = x convSum)
             (_modelProxyList convSum)
        /\ _coefProxyList convSum = _coefProxyList self
        /\ _isCopy convSum = false
        /\ _basis convSum = Some basis).
Proof. exact (convolution_returns_inv conv self basis owner res out). Qed.

Lemma convolution_outcomes_witness :
  exists convSum,
    convolution Sample.convolve Sample.pair Sample.basis "owner"
    = Ret (Some convSum, [])
    /\ wellSized Sample.pair
    /\ _coefProxyList convSum = _coefProxyList Sample.pair
    /\ _isCopy convSum = false.
Proof.
  destruct (convolution Sample.convolve Sample.pair Sample.basis "owner")
    as [[res out]| |] eqn:E; try (vm_compute in E; discriminate).
  destruct (convolution_outcomes _ _ _ _ _ _ E)
    as [(Hnone & server & Hs & Hne & _)
       |(convSum & -> & -> & _ & Hsz & _ & _ & Hcoefs & Hcopy & _)].
  - exfalso. apply Hne. vm_compute in Hs. now inversion Hs.
  - exists convSum. repeat split; assumption.
Defined.

(** X9.  The destructor deletes components only for a convolution object
    that is not a copy.  A copy deletes none, whatever it was copied from;
    an instance built from raw lists deletes none of the models it was
    given; a composite returned by [convolution] deletes exactly the
    convolutions of the components it was built from, and a copy of it
    deletes none of them. *)
Theorem components_ownership :
  (forall other name, dtor_ownedList (RooAddModel_copy other name) = [])
  /\ (forall name title modelList coefList inst,
        RooAddModel_ctor name title modelList coefList = Ret inst ->
        dtor_ownedList inst = [])
  /\ (forall conv self basis owner convSum out,
        convolution conv self basis owner = Ret (Some convSum, out) ->
        dtor_ownedList convSum = _modelProxyList convSum
        /\ Forall2 (fun m c => conv m basis owner = Some c)
             (_modelProxyList self) (dtor_ownedList convSum)
        /\ forall name, dtor_ownedList (RooAddModel_copy convSum name) = []).
Proof.
  assert (Hcopy : forall other name,
             dtor_ownedList (RooAddModel_copy other name) = []).
  { intros other name. unfold dtor_ownedList, RooAddModel_copy. cbn.
    destruct (_basis other); reflexivity. }
  split; [exact Hcopy|]. split.
  - intros name title modelList coefList inst H.
    destruct (ctor_returns_inv _ _ _ _ _ H) as (_ & _ & _ & _ & _ & Hbasis & _).
    unfold dtor_ownedList. rewrite Hbasis. reflexivity.
  - intros conv self basis owner convSum out H.
    destruct (convolution_returns_inv _ _ _ _ _ _ H)
      as [[Hnone _]|(c & Hsome & _ & _ & _ & Hclones & _ & _ & Hnotcopy & Hbasis)];
      [discriminate|].
    inversion Hsome; subst c; clear Hsome.
    assert (Hown : dtor_ownedList convSum = _modelProxyList convSum).
    { unfold dtor_ownedList. rewrite Hbasis, Hnotcopy. reflexivity. }
    split; [exact Hown|]. split; [rewrite Hown; exact Hclones|].
    intros name. apply Hcopy.
Qed.

Lemma components_ownership_witness :
  exists convSum,
    convolution Sample.convolve Sample.pair Sample.basis "owner"
    = Ret (Some convSum, [])
    /\ map model_GetName (dtor_ownedList convSum)
       = ["A_conv_exp"; "B_conv_exp"]%string
    /\ dtor_ownedList (RooAddModel_copy convSum "copy") = [].
Proof.
  destruct (convolution Sample.convolve Sample.pair Sample.basis "owner")
    as [[[convSum|] out]| |] eqn:E; try (vm_compute in E; discriminate).
  destruct (proj2 (proj2 components_ownership) _ _ _ _ _ _ E)
    as (Hown & _ & Hcopy).
  assert (Hout : out = []) by (vm_compute in E; now inversion E).
  subst out. exists convSum. split; [reflexivity|]. split; [|apply Hcopy].
  rewrite Hown. vm_compute in E. inversion E. reflexivity.
Defined.

(** ** Dependents of models and coefficients *)

Lemma checkDependents_loop_spec ov set : forall coefs models ret out,
  (length coefs <= length models)%nat ->
  checkDependents_loop ov set coefs models ret out
  = Ret (ret || existsb (fun mc => ov (fst mc) set (snd mc))
                  (combine models coefs),
         out ++ map (fun mc => (real_GetName (snd mc), model_GetName (fst mc)))
                  (filter (fun mc => ov (fst mc) set (snd mc))
                     (combine models coefs))).
Proof.
  induction coefs as [|coef coefs IH]; intros models ret out Hlen.
  - destruct models; cbn; now rewrite orb_false_r, app_nil_r.
  - destruct models as [|model models]; [cbn in Hlen; lia|].
    cbn in Hlen. cbn [checkDependents_loop combine existsb filter fst snd].
    destruct (ov model set coef) eqn:E; rewrite IH by lia.
    + cbn [orb map]. rewrite <- app_assoc, orb_true_r. reflexivity.
    + reflexivity.
Qed.

Lemma checkDependents_loop_extra ov set extra : forall coefs front ret out,
  (length coefs <= length front)%nat ->
  checkDependents_loop ov set coefs (front ++ extra) ret out
  = checkDependents_loop ov set coefs front ret out.
Proof.
  induction coefs as [|coef coefs IH]; intros front ret out Hlen;
    [reflexivity|].
  destruct front as [|model front]; [cbn in Hlen; lia|].
  cbn in Hlen. cbn [checkDependents_loop app].
  destruct (ov model set coef); apply IH; lia.
Qed.

(** X10.  On a composite of N models and N-1 coefficients, [checkDependents]
    returns true exactly when some model overlaps with its own paired
    coefficient; it goes on after a first overlap and reports every
    overlapping pair, in order; it reports nothing when it returns false;
    and the last model, which has no coefficient, is never examined. *)
Theorem checkDependents_reports_all ov self set :
  wellSized self ->
  exists ret out,
    checkDependents ov self set = Ret (ret, out)
    /\ (ret = true
        <-> exists m c, In (m, c) (pairedComponents self) /\ ov m set c = true)
    /\ out
       = map (fun mc => (real_GetName (snd mc), model_GetName (fst mc)))
           (filter (fun mc => ov (fst mc) set (snd mc)) (pairedComponents self))
    /\ (ret = false -> out = [])
    /\ (forall front last last',
          _modelProxyList self = front ++ [last] ->
          checkDependents ov (set_models self (front ++ [last'])) set
          = checkDependents ov self set).
Proof.
  unfold wellSized. intros Hsz. unfold checkDependents at 1.
  rewrite checkDependents_loop_spec by lia. cbn [orb app].
  fold (pairedComponents self).
  do 2 eexists. split; [reflexivity|].
  split; [|split; [reflexivity|split]].
  - rewrite existsb_exists. split.
    + intros ([m c] & Hin & Hov). exists m, c. split; assumption.
    + intros (m & c & Hin & Hov). exists (m, c). split; assumption.
  - intros Hret.
    destruct (filter _ (pairedComponents self)) as [|[m c] l] eqn:E;
      [reflexivity|].
    assert (Hin : In (m, c) (filter (fun mc => ov (fst mc) set (snd mc))
                               (pairedComponents self)))
      by (rewrite E; now left).
    apply filter_In in Hin. destruct Hin as [Hin Hov].
    assert (Hex : existsb (fun mc => ov (fst mc) set (snd mc))
                    (pairedComponents self) = true)
      by (apply existsb_exists; exists (m, c); split; assumption).
    congruence.
  - intros front last last' Hmodels. unfold checkDependents.
    cbn [set_models _coefProxyList _modelProxyList]. rewrite Hmodels.
    assert (Hlen : (length (_coefProxyList self) <= length front)%nat).
    { rewrite Hmodels, length_app in Hsz. cbn in Hsz. lia. }
    now rewrite !checkDependents_loop_extra by exact Hlen.
Qed.

Lemma checkDependents_reports_all_witness :
  checkDependents Sample.overlapsB Sample.inRange None
  = Ret (true, [("c2", "B")]%string)
  /\ checkDependents Sample.overlapsB
       (set_models Sample.inRange [Sample.A; Sample.B; Sample.B]) None
     = checkDependents Sample.overlapsB Sample.inRange None.
Proof.
  destruct (checkDependents_reports_all Sample.overlapsB Sample.inRange None
              eq_refl) as (ret & out & Hrun & _ & _ & _ & Hlast).
  split.
  - rewrite Hrun. vm_compute in Hrun. inversion Hrun. reflexivity.
  - apply (Hlast [Sample.A; Sample.B] Sample.B' Sample.B). reflexivity.
Defined.

(** ** The analytical integral: codes without a plan *)

(** X16.  A master code that names no stored plan is not answered with a
    value: for a code other than 0 that does not lie between 1 and the
    number of stored plans, [analyticalIntegralWN] writes the error about
    the unrecognised code and stops at [assert(0)]. *)
Theorem integral_unrecognized_code self code normSet :
  RooAICRegistry.fits (_codeReg self) ->
  Int32.in_range code ->
  code <> 0%Z ->
  ~ (1 <= code <= Z.of_nat (length (_codeReg self)))%Z ->
  analyticalIntegralWN self code normSet = AssertFail (UnrecognizedCode code).
Proof.
  unfold RooAICRegistry.fits, Int32.in_range, Int32.min_int, Int32.max_int.
  intros Hfits Hrange Hcode Hout.
  unfold analyticalIntegralWN.
  replace (code =? 0)%Z with false by (symmetry; now apply Z.eqb_neq).
  assert (Hnone : RooAICRegistry.retrieve (_codeReg self) (Int32.sub code 1%Z)
                  = None).
  { unfold RooAICRegistry.retrieve.
    destruct (Z.eq_dec code (- 2 ^ 31)) as [->|Hmin].
    - replace (Int32.sub (- 2 ^ 31) 1)%Z with (2 ^ 31 - 1)%Z
        by (vm_compute; reflexivity).
      replace (2 ^ 31 - 1 <? 0)%Z with false by reflexivity.
      apply nth_error_None. lia.
    - unfold Int32.sub.
      rewrite Int32_wrap_small
        by (unfold Int32.in_range, Int32.min_int, Int32.max_int; lia).
      destruct (code - 1 <? 0)%Z eqn:E; [reflexivity|].
      apply Z.ltb_ge in E. apply nth_error_None. lia. }
  rewrite Hnone. reflexivity.
Qed.

Lemma integral_unrecognized_code_witness :
  analyticalIntegralWN Sample.plannedTwice 3%Z None
  = AssertFail (UnrecognizedCode 3%Z)
  /\ analyticalIntegralWN Sample.plannedTwice (-1)%Z None
     = AssertFail (UnrecognizedCode (-1)%Z).
Proof.
  split.
  - apply (integral_unrecognized_code Sample.plannedTwice 3%Z None).
    + reflexivity.
    + vm_compute. split; discriminate.
    + discriminate.
    + cbn. lia.
  - apply (integral_unrecognized_code Sample.plannedTwice (-1)%Z None).
    + reflexivity.
    + vm_compute. split; discriminate.
    + discriminate.
    + cbn. lia.
Defined.

(** ** Negotiation and integral: when they return *)

(** X11.  [getAnalyticalIntegralWN] returns exactly when the basis code of
    the composite is not 0, and then with master code 0, the output set
    untouched and nothing written.  With basis code 0, that is exactly when
    [forceAnalyticalInt] holds, it does not return, whatever the components
    and the request: the loop condition of the first iteration takes
    [absArg()] of the null proxy that follows the last model. *)
Theorem negotiation_returns_iff self allVars analVars normSet dep :
  (returns (getAnalyticalIntegralWN self allVars analVars normSet) = true
   <-> _basisCode self <> 0%Z)
  /\ (_basisCode self <> 0%Z ->
      getAnalyticalIntegralWN self allVars analVars normSet
      = Ret (0%Z, analVars, self, []))
  /\ (forceAnalyticalInt self dep = true
      <-> getAnalyticalIntegralWN self allVars analVars normSet = Undefined).
Proof.
  destruct (Z.eq_dec (_basisCode self) 0) as [Hz|Hnz].
  - pose proof (getAnalyticalIntegralWN_null_proxy self allVars analVars
                  normSet Hz) as Hrun.
    rewrite Hrun. unfold forceAnalyticalInt. rewrite Hz.
    split; [split; [discriminate | intros H; now elim H]|].
    split; [intros H; now elim H | split; reflexivity].
  - pose proof (getAnalyticalIntegralWN_disabled self allVars analVars
                  normSet Hnz) as Hrun.
    rewrite Hrun. unfold forceAnalyticalInt.
    split; [split; [intros _; exact Hnz | reflexivity]|].
    split; [reflexivity|].
    apply Z.eqb_neq in Hnz. rewrite Hnz. split; discriminate.
Qed.

Lemma negotiation_returns_iff_witness :
  getAnalyticalIntegralWN Sample.plainSum Sample.requestXY Sample.callerVars None
  = Ret (0%Z, Sample.callerVars, Sample.plainSum, [])
  /\ getAnalyticalIntegralWN Sample.agreeing Sample.requestXY
       Sample.callerVars None = Undefined.
Proof.
  split.
  - apply (proj1 (proj2 (negotiation_returns_iff Sample.plainSum
                           Sample.requestXY Sample.callerVars None "X"%string))).
    discriminate.
  - apply (proj1 (proj2 (proj2 (negotiation_returns_iff Sample.agreeing
                                   Sample.requestXY Sample.callerVars None
                                   "X"%string)))).
    reflexivity.
Defined.

(** X14.  For a code other than 0, [analyticalIntegralWN] never returns a
    value: without a plan under the code it stops at [assert(0)], and with
    a plan it sums over the coefficients and then, after the last one,
    takes [absArg()] of a null proxy in its loop condition, before the last
    model is added and before the warning about the coefficients. *)
Theorem integral_nonzero_code_never_returns self code normSet :
  code <> 0%Z ->
  returns (analyticalIntegralWN self code normSet) = false
  /\ (forall subCode,
        RooAICRegistry.retrieve (_codeReg self) (Int32.sub code 1%Z)
        = Some subCode ->
        analyticalIntegralWN self code normSet = Undefined)
  /\ (RooAICRegistry.retrieve (_codeReg self) (Int32.sub code 1%Z) = None ->
      analyticalIntegralWN self code normSet
      = AssertFail (UnrecognizedCode code)).
Proof.
  intros Hcode. unfold analyticalIntegralWN.
  replace (code =? 0)%Z with false by (symmetry; now apply Z.eqb_neq).
  destruct (RooAICRegistry.retrieve (_codeReg self) (Int32.sub code 1%Z))
    as [subCode|].
  - rewrite analyticalIntegralWN_loop_null_proxy. cbn [bind returns].
    split; [reflexivity|]. split; [reflexivity | discriminate].
  - cbn [returns]. split; [reflexivity|]. split; [discriminate | reflexivity].
Qed.

Lemma integral_nonzero_code_never_returns_witness :
  analyticalIntegralWN Sample.plannedTwice 2%Z None = Undefined
  /\ returns (analyticalIntegralWN Sample.plannedTwice 3%Z None) = false.
Proof.
  split.
  - apply (proj1 (proj2 (integral_nonzero_code_never_returns
                           Sample.plannedTwice 2%Z None
                           ltac:(discriminate)))
             [2%Z; 3%Z]).
    reflexivity.
  - apply (integral_nonzero_code_never_returns Sample.plannedTwice 3%Z None).
    discriminate.
Defined.
